(** * Voltage Pay NWC wrapper: a shallow embedding and its properties

    The development follows the TypeScript sources:
    - [src/VoltagePayments.ts]  the HTTP client ([Module Voltage], and
      [Module Configured] for its constructor and every number a
      setting can hold);
    - [src/nwc/types.ts], [src/nwc/utils.ts], [src/nwc/NWCService.ts]
      the Nostr Wallet Connect service ([Module NWC]).

    Asynchronous code is written in a small monad [M] that threads the
    state of the outside world, collects the effects of a run in order
    (HTTP exchanges, timer waits, callbacks, relay publications, error
    logs) and ends in a returned value, a thrown exception, or [Hang]
    when a loop is cut by its fuel.  Everything the program cannot
    decide itself (backend replies, random identifiers, the clock, the
    cryptographic envelope, the JSON parser) is read from an [Env]. *)

From Stdlib Require Import ZArith List String Ascii Bool Arith Lia DecimalString.
From Stdlib Require QArith Qround.
Import ListNotations.
Local Open Scope string_scope.
#[local] Set Warnings "-register-all".
#[local] Set Warnings "-notation-overridden".

(** ** JavaScript values *)

(** Values that flow through [JSON.parse], request parameters and result
    objects.  [JUndefined] and [JNaN] are JavaScript values that JSON
    cannot write. *)
Inductive value : Type :=
| JUndefined
| JNull
| JBool (b : bool)
| JNum (n : Z)
| JNaN
| JStr (s : string)
| JArr (items : list value)
| JObj (props : list (string * value)).

(** What [throw] can carry: an [Error] instance (with its message) or any
    other value. *)
Inductive exn : Type :=
| JsError (message : string)
| NonError (v : value).

(** [if (v)], [v || d], [v ? a : b]. *)
Definition truthy (v : value) : bool :=
  match v with
  | JUndefined | JNull | JNaN => false
  | JBool b => b
  | JNum n => negb (n =? 0)%Z
  | JStr s => negb (s =? EmptyString)
  | JArr _ | JObj _ => true
  end.

(** [a || b] *)
Definition js_or (a b : value) : value := if truthy a then a else b.

Fixpoint lookup (key : string) (props : list (string * value)) : value :=
  match props with
  | [] => JUndefined
  | (k, v) :: rest => if k =? key then v else lookup key rest
  end.

Definition has_key (key : string) (props : list (string * value)) : bool :=
  existsb (fun kv => fst kv =? key) props.

(** [JSON.stringify]: the text is represented by the tree it denotes.
    Properties whose value is undefined are left out; undefined array
    items and NaN are written [null]. *)
Fixpoint JSON_stringify (v : value) : value :=
  match v with
  | JNaN => JNull
  | JArr items =>
      JArr (map (fun x => match x with
                          | JUndefined => JNull
                          | _ => JSON_stringify x
                          end) items)
  | JObj props =>
      JObj ((fix fields (l : list (string * value)) : list (string * value) :=
               match l with
               | [] => []
               | (k, x) :: rest =>
                   match x with
                   | JUndefined => fields rest
                   | _ => (k, JSON_stringify x) :: fields rest
                   end
               end) props)
  | _ => v
  end.

Definition Number_toString (n : nat) : string :=
  NilEmpty.string_of_uint (Nat.to_uint n).

Definition opt_str (o : option string) : value :=
  match o with Some s => JStr s | None => JUndefined end.

(** ** Payment records ([PaymentData], [PaymentResponse]) *)

Module Payment.

Inductive PaymentStatus : Type := sending | receiving | completed | failed.

Inductive Direction : Type := send | receive.

Record PaymentData : Type := {
  amount_msats : Z;
  max_fee_msats : option Z;
  payment_request : option string;
  memo : option string
}.

Record PaymentResponse : Type := {
  bip21_uri : option string;
  created_at : string;
  currency : string;
  data : PaymentData;
  direction : Direction;
  environment_id : string;
  error : option string;
  id : string;
  organization_id : string;
  status : PaymentStatus;
  updated_at : string;
  wallet_id : string
}.

End Payment.
Import Payment.

(** ** HTTP *)

Record RequestInit : Type := {
  method : string;
  headers : list (string * string);
  body : option value
}.

(** [http_body]: [None] when the body is not a JSON payment record, so
    that [response.json()] rejects. *)
Record Response : Type := {
  http_status : nat;
  http_body : option PaymentResponse
}.

Inductive Reply : Type :=
| NetworkFailure (e : exn)
| Responded (r : Response).

(** [response.ok] *)
Definition ok (r : Response) : bool :=
  (200 <=? http_status r)%nat && (http_status r <=? 299)%nat.

(** ** Nostr events *)

Record NostrEvent : Type := {
  ev_kind : Z;
  ev_content : string;
  ev_tags : list (list string);
  ev_created_at : Z;
  ev_pubkey : string;
  ev_id : string;
  ev_sig : string
}.

Record EventTemplate : Type := {
  t_kind : Z;
  t_content : string;
  t_tags : list (list string);
  t_created_at : Z
}.

(** ** Effects, worlds and the monad *)

(** Public operations of the payment client.  [Call] marks in the trace
    where a run enters one of them; it is a mark for counting calls, not
    an action of the program. *)
Inductive ClientOp : Type :=
| OpCreatePaymentRequest
| OpSendPayment
| OpGetPayment (paymentId : string)
| OpPollPaymentStatus (paymentId : string).

Inductive effect : Type :=
| Fetch (url : string) (init : RequestInit) (reply : Reply)
| Sleep (ms : nat)
| StatusUpdate (s : PaymentStatus)
| Publish (e : NostrEvent)
| ConsoleError (label : string)
| Call (op : ClientOp).

(** How many times each outside source has been consulted. *)
Record World : Type := {
  http_calls : nat;
  uuid_calls : nat;
  clock_reads : nat
}.

Record Env : Type := {
  (** reply to the n-th [fetch] of the run *)
  backend : nat -> string -> RequestInit -> Reply;
  (** n-th identifier drawn from [uuidv4()] *)
  uuidv4 : nat -> string;
  (** n-th reading of [Date.now()], in milliseconds *)
  Date_now : nat -> Z;
  (** [new Date(s).getTime()]; [None] is NaN *)
  Date_getTime : string -> option Z;
  (** [nip04.decrypt secret pubkey content]; [None] when it throws *)
  nip04_decrypt : string -> string -> string -> option string;
  (** [nip04.encrypt secret pubkey text], the text given as its JSON tree;
      inbound events are signature-checked before they are delivered, so
      the sender's key is a valid key and sealing a text to it succeeds *)
  nip04_encrypt : string -> string -> value -> string;
  (** [JSON.parse]; [None] is a SyntaxError *)
  JSON_parse : string -> option value;
  (** [getPublicKey], the event hash and the signature of [finalizeEvent] *)
  getPublicKey : string -> string;
  getEventHash : string -> EventTemplate -> string;
  signEvent : string -> EventTemplate -> string;
  (** string conversion in template literals *)
  js_String : value -> string;
  (** string conversion of a finite number in template literals *)
  js_String_number : QArith_base.Q -> string;
  (** [a + b] when an operand is not a number, or when the sum of two
      numbers is not exact in double precision *)
  js_plus_coerce : value -> value -> value
}.

Inductive outcome (A : Type) : Type :=
| Ret (a : A)
| Throw (e : exn)
| Hang.
Arguments Ret {A} a.
Arguments Throw {A} e.
Arguments Hang {A}.

Record run (A : Type) : Type := Run {
  out : outcome A;
  trace : list effect;
  final : World
}.
Arguments Run {A} out trace final.
Arguments out {A} r.
Arguments trace {A} r.
Arguments final {A} r.

Definition M (A : Type) : Type := World -> run A.

Definition ret {A} (a : A) : M A := fun w => Run (Ret a) [] w.

Definition throw {A} (e : exn) : M A := fun w => Run (Throw e) [] w.

Definition hang {A} : M A := fun w => Run Hang [] w.

Definition emit (e : effect) : M unit := fun w => Run (Ret tt) [e] w.

(** [r] with the effects [tr] before its own. *)
Definition after {A} (tr : list effect) (r : run A) : run A :=
  match r with
  | Run o tr' w => Run o (tr ++ tr') w
  end.

Definition bind {A B} (m : M A) (k : A -> M B) : M B :=
  fun w =>
    match m w with
    | Run (Ret a) tr w' => after tr (k a w')
    | Run (Throw e) tr w' => Run (Throw e) tr w'
    | Run Hang tr w' => Run Hang tr w'
    end.

(** [try { m } catch (error) { handler error }] *)
Definition try_catch {A} (m : M A) (handler : exn -> M A) : M A :=
  fun w =>
    match m w with
    | Run (Throw e) tr w' => after tr (handler e w')
    | r => r
    end.

Declare Scope js_scope.
Delimit Scope js_scope with js.
Notation "x <- m ;; k" := (bind m (fun x => k))
  (at level 61, m at next level, right associativity) : js_scope.
Notation "m ;; k" := (bind m (fun _ => k))
  (at level 61, right associativity) : js_scope.
Local Open Scope js_scope.

(** [await new Promise(resolve => setTimeout(resolve, ms))] *)
Definition sleep (ms : nat) : M unit := emit (Sleep ms).

(** [console.error(label, ...)] *)
Definition console_error (label : string) : M unit := emit (ConsoleError label).

(** Property read [v.key] for the property names the program uses, none of
    which exists on a primitive or an array. *)
Definition js_get (v : value) (key : string) : M value :=
  match v with
  | JUndefined =>
      throw (JsError ("Cannot read properties of undefined (reading '" ++ key ++ "')"))
  | JNull =>
      throw (JsError ("Cannot read properties of null (reading '" ++ key ++ "')"))
  | JObj props => ret (lookup key props)
  | _ => ret JUndefined
  end.

(** * src/VoltagePayments.ts *)

Module Voltage.

(** The client with natural numbers for [maxRetries] and [retryDelay]:
    [maxRetries] retries are allowed, and [retryDelay] milliseconds is
    what the timer waits.  The constructor, which can leave any number
    in these fields, is in [Module Configured] below, with the client it
    makes and with [natural], which relates that client to this one. *)
Record VoltagePayments : Type := {
  apiKey : string;
  organizationId : string;
  environmentId : string;
  baseUrl : string;
  maxRetries : nat;
  retryDelay : nat
}.

Record CreatePaymentRequestParams : Type := {
  cp_amount_msats : value;
  cp_wallet_id : string;
  cp_description : value;
  cp_max_fee_msats : value
}.

Record SendPaymentParams : Type := {
  sp_wallet_id : string;
  sp_payment_request : value;
  sp_amount_msats : value;
  sp_max_fee_msats : value
}.

(** What the body of the [try] in [fetchWithRetry] hands back: a response,
    or the promise of the next attempt.  The next attempt is returned
    without [await], so its failure is not caught by this attempt's
    [catch]. *)
Inductive attempt : Type :=
| Done (response : Response)
| Again.

Section Client.

Variable E : Env.
Variable this : VoltagePayments.

(** [fetch(url, init)] *)
Definition fetch (url : string) (init : RequestInit) : M Response :=
  fun w =>
    let reply := backend E (http_calls w) url init in
    let w' := {| http_calls := S (http_calls w);
                 uuid_calls := uuid_calls w;
                 clock_reads := clock_reads w |} in
    match reply with
    | NetworkFailure e => Run (Throw e) [Fetch url init reply] w'
    | Responded r => Run (Ret r) [Fetch url init reply] w'
    end.

(** [uuidv4()] *)
Definition fresh_uuid : M string :=
  fun w =>
    Run (Ret (uuidv4 E (uuid_calls w))) []
        {| http_calls := http_calls w;
           uuid_calls := S (uuid_calls w);
           clock_reads := clock_reads w |}.

(** [response.json()] *)
Definition json (response : Response) : M PaymentResponse :=
  match http_body response with
  | Some payment => ret payment
  | None => throw (JsError "Unexpected end of JSON input")
  end.

(** [{ ...options, headers: { ...options.headers, 'x-api-key': apiKey } }] *)
Definition with_api_key (options : RequestInit) : RequestInit :=
  {| method := method options;
     headers := filter (fun h => negb (fst h =? "x-api-key")) (headers options)
                  ++ [("x-api-key", apiKey this)];
     body := body options |}.

(** [console.log] lines and the reading of the error body for the log are
    left out. *)
Fixpoint fetchWithRetry_fuel (fuel : nat) (url : string) (options : RequestInit)
    (retryCount : nat) : M Response :=
  match fuel with
  | O => hang
  | S fuel' =>
      step <- try_catch
        (response <- fetch url (with_api_key options) ;;
         if (http_status response =? 404)%nat && (retryCount <? maxRetries this)%nat then
           sleep (retryDelay this) ;;
           ret Again
         else if negb (ok response) then
           console_error "Error response:" ;;
           throw (JsError ("HTTP error! status: "
                           ++ Number_toString (http_status response)))
         else ret (Done response))
        (fun error =>
           console_error "Error fetching with retry:" ;;
           if (retryCount <? maxRetries this)%nat then
             sleep (retryDelay this) ;;
             ret Again
           else throw error) ;;
      match step with
      | Done response => ret response
      | Again => fetchWithRetry_fuel fuel' url options (S retryCount)
      end
  end.

(** [retryCount] only grows and no attempt is made beyond [maxRetries], so
    [maxRetries - retryCount + 1] attempts are all there can be. *)
Definition fetchWithRetry (url : string) (options : RequestInit)
    (retryCount : nat) : M Response :=
  fetchWithRetry_fuel (S (maxRetries this - retryCount)) url options retryCount.

Definition getPaymentUrl (paymentId : option string) : string :=
  let base := baseUrl this ++ "/organizations/" ++ organizationId this
              ++ "/environments/" ++ environmentId this ++ "/payments" in
  match paymentId with
  | Some p => if p =? EmptyString then base else base ++ "/" ++ p
  | None => base
  end.

Definition getPayment (paymentId : string) : M PaymentResponse :=
  emit (Call (OpGetPayment paymentId)) ;;
  let url := getPaymentUrl (Some paymentId) in
  response <- fetchWithRetry url
                {| method := "GET"; headers := []; body := None |} 0 ;;
  json response.

(** [if (payment.data.payment_request)] *)
Definition has_payment_request (payment : PaymentResponse) : bool :=
  truthy (opt_str (payment_request (data payment))).

(** The [while (attempts < this.maxRetries)] loop of
    [createPaymentRequest]. *)
Fixpoint waitForPaymentRequest (fuel : nat) (paymentId : string)
    (attempts : nat) : M PaymentResponse :=
  match fuel with
  | O => hang
  | S fuel' =>
      if (attempts <? maxRetries this)%nat then
        payment <- getPayment paymentId ;;
        if has_payment_request payment then ret payment
        else
          sleep (retryDelay this) ;;
          waitForPaymentRequest fuel' paymentId (S attempts)
      else
        throw (JsError "Timeout waiting for payment request to be generated")
  end.

Definition createPaymentRequest_body (paymentId : string)
    (params : CreatePaymentRequestParams) : value :=
  JSON_stringify
    (JObj [("id", JStr paymentId);
           ("amount_msats", cp_amount_msats params);
           ("currency", JStr "btc");
           ("description", cp_description params);
           ("payment_kind", JStr "bolt11");
           ("wallet_id", JStr (cp_wallet_id params));
           ("max_fee_msats", cp_max_fee_msats params)]).

Definition createPaymentRequest (params : CreatePaymentRequestParams)
    : M PaymentResponse :=
  emit (Call OpCreatePaymentRequest) ;;
  paymentId <- fresh_uuid ;;
  let url := getPaymentUrl None in
  response <- fetchWithRetry url
                {| method := "POST";
                   headers := [("Content-Type", "application/json")];
                   body := Some (createPaymentRequest_body paymentId params) |} 0 ;;
  if (http_status response =? 202)%nat then
    waitForPaymentRequest (S (maxRetries this - 0)) paymentId 0
  else json response.

Definition sendPayment_body (paymentId : string) (params : SendPaymentParams)
    : value :=
  JSON_stringify
    (JObj [("id", JStr paymentId);
           ("wallet_id", JStr (sp_wallet_id params));
           ("currency", JStr "btc");
           ("type", JStr "bolt11");
           ("data", JObj [("amount_msats", sp_amount_msats params);
                          ("max_fee_msats", sp_max_fee_msats params);
                          ("payment_request", sp_payment_request params)])]).

Definition sendPayment (params : SendPaymentParams) : M PaymentResponse :=
  emit (Call OpSendPayment) ;;
  paymentId <- fresh_uuid ;;
  let url := getPaymentUrl None in
  response <- fetchWithRetry url
                {| method := "POST";
                   headers := [("Content-Type", "application/json")];
                   body := Some (sendPayment_body paymentId params) |} 0 ;;
  if (http_status response =? 202)%nat then getPayment paymentId
  else json response.

Definition terminal (s : PaymentStatus) : bool :=
  match s with
  | completed | failed => true
  | sending | receiving => false
  end.

(** The [while (attempts < this.maxRetries)] loop of [pollPaymentStatus]. *)
Fixpoint pollLoop (fuel : nat) (paymentId : string)
    (onStatusUpdate : option (PaymentStatus -> M unit)) (attempts : nat)
    : M PaymentResponse :=
  match fuel with
  | O => hang
  | S fuel' =>
      if (attempts <? maxRetries this)%nat then
        payment <- getPayment paymentId ;;
        match onStatusUpdate with
        | Some callback => callback (status payment)
        | None => ret tt
        end ;;
        if terminal (status payment) then ret payment
        else
          sleep (retryDelay this) ;;
          pollLoop fuel' paymentId onStatusUpdate (S attempts)
      else
        throw (JsError ("Payment status polling timed out after "
                        ++ Number_toString (maxRetries this) ++ " attempts"))
  end.

Definition pollPaymentStatus (paymentId : string)
    (onStatusUpdate : option (PaymentStatus -> M unit)) : M PaymentResponse :=
  emit (Call (OpPollPaymentStatus paymentId)) ;;
  pollLoop (S (maxRetries this - 0)) paymentId onStatusUpdate 0.

End Client.

(** An observer that does nothing but be seen. *)
Definition record_status : PaymentStatus -> M unit :=
  fun s => emit (StatusUpdate s).

End Voltage.

(** * src/VoltagePayments.ts: the constructor, and any number as a setting

    [maxRetries] and [retryDelay] are JavaScript numbers, and the
    constructor keeps whatever truthy number it is given: a negative
    one, a fraction, [Infinity].  This module has the constructor and the
    client for every such setting.  Its loops take the fuel that the
    loops of [Module Voltage] compute from [maxRetries], since with
    [Infinity] no amount need be enough. *)

Module Configured.

(** A number: a finite one (the doubles are among the rationals), an
    infinity or NaN. *)
Inductive number : Type :=
| Finite (q : QArith_base.Q)
| PlusInfinity
| MinusInfinity
| NaN.

Definition of_Z (z : Z) : number := Finite (QArith_base.inject_Z z).

Definition of_nat (n : nat) : number := of_Z (Z.of_nat n).

(** [!x]: zero and NaN are falsy. *)
Definition falsy (x : number) : bool :=
  match x with
  | Finite q => QArith_base.Qeq_bool q (QArith_base.inject_Z 0)
  | NaN => true
  | PlusInfinity | MinusInfinity => false
  end.

(** [count < limit], for a counter that starts at zero and is
    incremented. *)
Definition below (count : nat) (limit : number) : bool :=
  match limit with
  | Finite q =>
      negb (QArith_base.Qle_bool q (QArith_base.inject_Z (Z.of_nat count)))
  | PlusInfinity => true
  | MinusInfinity | NaN => false
  end.

(** How many counters are below a limit that is not [Infinity]: the
    least natural number that is not below it. *)
Definition budget (limit : number) : nat :=
  match limit with
  | Finite q => Z.to_nat (Qround.Qceiling q)
  | PlusInfinity | MinusInfinity | NaN => 0
  end.

(** The milliseconds [setTimeout] of Node.js waits when given [ms]: the
    number truncated to an integer, and 1 when it is less than 1, larger
    than 2147483647 or NaN. *)
Definition timer_delay (ms : number) : nat :=
  match ms with
  | Finite q =>
      if QArith_base.Qle_bool (QArith_base.inject_Z 1) q
         && QArith_base.Qle_bool q (QArith_base.inject_Z 2147483647)
      then Z.to_nat (Qround.Qfloor q)
      else 1
  | PlusInfinity | MinusInfinity | NaN => 1
  end.

(** A number in a template literal. *)
Definition number_text (E : Env) (x : number) : string :=
  match x with
  | Finite q => js_String_number E q
  | PlusInfinity => "Infinity"
  | MinusInfinity => "-Infinity"
  | NaN => "NaN"
  end.

Record VoltageConfig : Type := {
  cfg_apiKey : string;
  cfg_organizationId : string;
  cfg_environmentId : string;
  cfg_baseUrl : option string;
  cfg_maxRetries : option number;
  cfg_retryDelay : option number
}.

Record VoltagePayments : Type := {
  apiKey : string;
  organizationId : string;
  environmentId : string;
  baseUrl : string;
  maxRetries : number;
  retryDelay : number
}.

(** [given || default] for a number that may be missing. *)
Definition or_default (given : option number) (default : nat) : number :=
  match given with
  | Some x => if falsy x then of_nat default else x
  | None => of_nat default
  end.

(** [constructor]: [x || d] takes the default for a missing, empty or zero
    setting (and for NaN), and keeps every other one. *)
Definition new_VoltagePayments (config : VoltageConfig) : VoltagePayments :=
  {| apiKey := cfg_apiKey config;
     organizationId := cfg_organizationId config;
     environmentId := cfg_environmentId config;
     baseUrl := match cfg_baseUrl config with
                | Some u => if u =? EmptyString then "https://voltageapi.com/v1" else u
                | None => "https://voltageapi.com/v1"
                end;
     maxRetries := or_default (cfg_maxRetries config) 30;
     retryDelay := or_default (cfg_retryDelay config) 2000 |}.

Section Client.

Variable E : Env.
Variable this : VoltagePayments.

(** [{ ...options, headers: { ...options.headers, 'x-api-key': apiKey } }] *)
Definition with_api_key (options : RequestInit) : RequestInit :=
  {| method := method options;
     headers := filter (fun h => negb (fst h =? "x-api-key")) (headers options)
                  ++ [("x-api-key", apiKey this)];
     body := body options |}.

(** [fuel] bounds the depth of the recursion; [console.log] lines and the
    reading of the error body for the log are left out. *)
Fixpoint fetchWithRetry (fuel : nat) (url : string) (options : RequestInit)
    (retryCount : nat) : M Response :=
  match fuel with
  | O => hang
  | S fuel' =>
      step <- try_catch
        (response <- Voltage.fetch E url (with_api_key options) ;;
         if (http_status response =? 404)%nat && below retryCount (maxRetries this) then
           sleep (timer_delay (retryDelay this)) ;;
           ret Voltage.Again
         else if negb (ok response) then
           console_error "Error response:" ;;
           throw (JsError ("HTTP error! status: "
                           ++ Number_toString (http_status response)))
         else ret (Voltage.Done response))
        (fun error =>
           console_error "Error fetching with retry:" ;;
           if below retryCount (maxRetries this) then
             sleep (timer_delay (retryDelay this)) ;;
             ret Voltage.Again
           else throw error) ;;
      match step with
      | Voltage.Done response => ret response
      | Voltage.Again => fetchWithRetry fuel' url options (S retryCount)
      end
  end.

Definition getPaymentUrl (paymentId : option string) : string :=
  let base := baseUrl this ++ "/organizations/" ++ organizationId this
              ++ "/environments/" ++ environmentId this ++ "/payments" in
  match paymentId with
  | Some p => if p =? EmptyString then base else base ++ "/" ++ p
  | None => base
  end.

Definition getPayment (fuel : nat) (paymentId : string) : M PaymentResponse :=
  emit (Call (OpGetPayment paymentId)) ;;
  let url := getPaymentUrl (Some paymentId) in
  response <- fetchWithRetry fuel url
                {| method := "GET"; headers := []; body := None |} 0 ;;
  Voltage.json response.

(** The [while (attempts < this.maxRetries)] loop of
    [createPaymentRequest]; [inner] is the fuel of the fetches. *)
Fixpoint waitForPaymentRequest (inner fuel : nat) (paymentId : string)
    (attempts : nat) : M PaymentResponse :=
  match fuel with
  | O => hang
  | S fuel' =>
      if below attempts (maxRetries this) then
        payment <- getPayment inner paymentId ;;
        if Voltage.has_payment_request payment then ret payment
        else
          sleep (timer_delay (retryDelay this)) ;;
          waitForPaymentRequest inner fuel' paymentId (S attempts)
      else
        throw (JsError "Timeout waiting for payment request to be generated")
  end.

Definition createPaymentRequest (fuel : nat)
    (params : Voltage.CreatePaymentRequestParams) : M PaymentResponse :=
  emit (Call OpCreatePaymentRequest) ;;
  paymentId <- Voltage.fresh_uuid E ;;
  let url := getPaymentUrl None in
  response <- fetchWithRetry fuel url
                {| method := "POST";
                   headers := [("Content-Type", "application/json")];
                   body := Some (Voltage.createPaymentRequest_body paymentId params) |}
                0 ;;
  if (http_status response =? 202)%nat then
    waitForPaymentRequest fuel fuel paymentId 0
  else Voltage.json response.

Definition sendPayment (fuel : nat) (params : Voltage.SendPaymentParams)
    : M PaymentResponse :=
  emit (Call OpSendPayment) ;;
  paymentId <- Voltage.fresh_uuid E ;;
  let url := getPaymentUrl None in
  response <- fetchWithRetry fuel url
                {| method := "POST";
                   headers := [("Content-Type", "application/json")];
                   body := Some (Voltage.sendPayment_body paymentId params) |} 0 ;;
  if (http_status response =? 202)%nat then getPayment fuel paymentId
  else Voltage.json response.

(** The [while (attempts < this.maxRetries)] loop of [pollPaymentStatus];
    [inner] is the fuel of the fetches. *)
Fixpoint pollLoop (inner fuel : nat) (paymentId : string)
    (onStatusUpdate : option (PaymentStatus -> M unit)) (attempts : nat)
    : M PaymentResponse :=
  match fuel with
  | O => hang
  | S fuel' =>
      if below attempts (maxRetries this) then
        payment <- getPayment inner paymentId ;;
        match onStatusUpdate with
        | Some callback => callback (status payment)
        | None => ret tt
        end ;;
        if Voltage.terminal (status payment) then ret payment
        else
          sleep (timer_delay (retryDelay this)) ;;
          pollLoop inner fuel' paymentId onStatusUpdate (S attempts)
      else
        throw (JsError ("Payment status polling timed out after "
                        ++ number_text E (maxRetries this) ++ " attempts"))
  end.

Definition pollPaymentStatus (fuel : nat) (paymentId : string)
    (onStatusUpdate : option (PaymentStatus -> M unit)) : M PaymentResponse :=
  emit (Call (OpPollPaymentStatus paymentId)) ;;
  pollLoop fuel fuel paymentId onStatusUpdate 0.

End Client.

(** The client of [Module Voltage] that does what [this] does when its
    [maxRetries] is not [Infinity]: as many retries as there are counters
    below [maxRetries], and the delay the timer takes. *)
Definition natural (this : VoltagePayments) : Voltage.VoltagePayments :=
  {| Voltage.apiKey := apiKey this;
     Voltage.organizationId := organizationId this;
     Voltage.environmentId := environmentId this;
     Voltage.baseUrl := baseUrl this;
     Voltage.maxRetries := budget (maxRetries this);
     Voltage.retryDelay := timer_delay (retryDelay this) |}.

End Configured.

(** * src/nwc/types.ts, src/nwc/utils.ts, src/nwc/NWCService.ts *)

Module NWC.
Import Voltage.

Inductive NWCErrorCode : Type :=
| RATE_LIMITED
| NOT_IMPLEMENTED
| INSUFFICIENT_BALANCE
| QUOTA_EXCEEDED
| RESTRICTED
| UNAUTHORIZED
| INTERNAL
| OTHER
| PAYMENT_FAILED
| NOT_FOUND.

(** The string each member of the enum stands for. *)
Definition NWCErrorCode_text (c : NWCErrorCode) : string :=
  match c with
  | RATE_LIMITED => "RATE_LIMITED"
  | NOT_IMPLEMENTED => "NOT_IMPLEMENTED"
  | INSUFFICIENT_BALANCE => "INSUFFICIENT_BALANCE"
  | QUOTA_EXCEEDED => "QUOTA_EXCEEDED"
  | RESTRICTED => "RESTRICTED"
  | UNAUTHORIZED => "UNAUTHORIZED"
  | INTERNAL => "INTERNAL"
  | OTHER => "OTHER"
  | PAYMENT_FAILED => "PAYMENT_FAILED"
  | NOT_FOUND => "NOT_FOUND"
  end.

Inductive NWCEventKind : Type := INFO | REQUEST | RESPONSE | NOTIFICATION.

Definition NWCEventKind_number (k : NWCEventKind) : Z :=
  match k with
  | INFO => 13194
  | REQUEST => 23194
  | RESPONSE => 23195
  | NOTIFICATION => 23196
  end.

Definition SUPPORTED_METHODS : list string :=
  ["pay_invoice"; "make_invoice"; "get_balance"; "get_info"].

Definition SUPPORTED_NOTIFICATIONS : list string :=
  ["payment_received"; "payment_sent"].

Record NWCError : Type := {
  code : NWCErrorCode;
  message : string
}.

(** [error] and [result]: [None] is [null].  [result_type] holds the
    request's [method] as it was received. *)
Record NWCResponse : Type := {
  result_type : value;
  error : option NWCError;
  result : option value
}.

Record NWCNotification : Type := {
  notification_type : string;
  notification : value
}.

Record NWCConfig : Type := {
  relayUrl : string;
  pubkey : string;
  secret : string;
  walletId : string
}.

Record NWCService : Type := {
  config : NWCConfig;
  voltage : VoltagePayments;
  relay : option string
}.

(** [constructor] *)
Definition new_NWCService (v : VoltagePayments) (c : NWCConfig) : NWCService :=
  {| config := c; voltage := v; relay := None |}.

(** The service once [init] has stored the relay it connected to; the
    subscription handler only ever runs on such a service. *)
Definition connected (this : NWCService) : NWCService :=
  {| config := config this;
     voltage := voltage this;
     relay := Some (relayUrl (config this)) |}.

(** The object literals handed to [JSON.stringify]. *)
Definition NWCResponse_object (r : NWCResponse) : value :=
  JObj [("result_type", result_type r);
        ("error", match error r with
                  | Some e => JObj [("code", JStr (NWCErrorCode_text (code e)));
                                    ("message", JStr (message e))]
                  | None => JNull
                  end);
        ("result", match result r with
                   | Some v => v
                   | None => JNull
                   end)].

Definition NWCNotification_object (n : NWCNotification) : value :=
  JObj [("notification_type", JStr (notification_type n));
        ("notification", notification n)].

(** [Array.prototype.includes] on an array of strings. *)
Definition includes (l : list string) (v : value) : bool :=
  match v with
  | JStr s => existsb (String.eqb s) l
  | _ => false
  end.

(** [v === "literal"], as in the cases of a [switch]. *)
Definition is_string (v : value) (literal : string) : bool :=
  match v with
  | JStr s => s =? literal
  | _ => false
  end.

Fixpoint join (sep : string) (l : list string) : string :=
  match l with
  | [] => EmptyString
  | [x] => x
  | x :: rest => x ++ sep ++ join sep rest
  end.

Section Service.

Variable E : Env.

(** [Date.now()] *)
Definition now : M Z :=
  fun w =>
    Run (Ret (Date_now E (clock_reads w))) []
        {| http_calls := http_calls w;
           uuid_calls := uuid_calls w;
           clock_reads := S (clock_reads w) |}.

(** [finalizeEvent] of nostr-tools: fills in the public key, the
    identifier and the signature, and leaves the rest as given. *)
Definition finalizeEvent (t : EventTemplate) (secretKey : string) : NostrEvent :=
  {| ev_kind := t_kind t;
     ev_content := t_content t;
     ev_tags := t_tags t;
     ev_created_at := t_created_at t;
     ev_pubkey := getPublicKey E secretKey;
     ev_id := getEventHash E (getPublicKey E secretKey) t;
     ev_sig := signEvent E secretKey t |}.

(** utils.ts *)
Definition createSignedEvent (kind : Z) (content : string)
    (tags : list (list string)) (privateKey : string) : M NostrEvent :=
  ms <- now ;;
  ret (finalizeEvent {| t_kind := kind;
                        t_content := content;
                        t_tags := tags;
                        t_created_at := (ms / 1000)%Z |} privateKey).

(** [nip04.decrypt] *)
Definition decrypt (secretKey pk content : string) : M string :=
  match nip04_decrypt E secretKey pk content with
  | Some text => ret text
  | None => throw (JsError "nip04.decrypt failed")
  end.

(** [JSON.parse] *)
Definition parse (text : string) : M value :=
  match JSON_parse E text with
  | Some v => ret v
  | None => throw (JsError "Unexpected token in JSON")
  end.

(** An integer that double precision holds exactly, as do its
    neighbours: at most 2^53 in magnitude. *)
Definition safe_integer (n : Z) : bool := (Z.abs n <=? 9007199254740992)%Z.

(** [a + b]: the sum of two numbers is the exact one when the operands
    and the sum are safe integers, and what the environment rounds it to
    otherwise. *)
Definition js_plus (a b : value) : value :=
  match a, b with
  | JNum x, JNum y =>
      if safe_integer x && safe_integer y && safe_integer (x + y)
      then JNum (x + y)
      else js_plus_coerce E a b
  | JNaN, JNum _ => JNaN
  | _, _ => js_plus_coerce E a b
  end.

(** [Math.floor(new Date(s).getTime() / 1000)]: a time value is at most
    8.64e15 milliseconds in magnitude, and NaN otherwise. *)
Definition unix_seconds (s : string) : value :=
  match Date_getTime E s with
  | Some ms =>
      if (Z.abs ms <=? 8640000000000000)%Z then JNum (ms / 1000) else JNaN
  | None => JNaN
  end.

Variable this : NWCService.

(** [if (this.relay) await this.relay.publish(event)]; the relay is taken
    to accept what it is handed. *)
Definition publish (event : NostrEvent) : M unit :=
  match relay this with
  | Some _ => emit (Publish event)
  | None => ret tt
  end.

Definition publishInfoEvent : M unit :=
  event <- createSignedEvent (NWCEventKind_number INFO)
             (join " " SUPPORTED_METHODS)
             [["notifications"; join " " SUPPORTED_NOTIFICATIONS]]
             (secret (config this)) ;;
  publish event.

Definition sendResponse (requestEvent : NostrEvent) (method : value)
    (result : value) : M unit :=
  let response := {| result_type := method;
                     error := None;
                     result := Some result |} in
  let encrypted := nip04_encrypt E (secret (config this)) (ev_pubkey requestEvent)
                     (JSON_stringify (NWCResponse_object response)) in
  event <- createSignedEvent (NWCEventKind_number RESPONSE) encrypted
             [["p"; ev_pubkey requestEvent]; ["e"; ev_id requestEvent]]
             (secret (config this)) ;;
  publish event.

Definition sendError (requestEvent : NostrEvent) (code : NWCErrorCode)
    (message : string) : M unit :=
  let response := {| result_type := JStr "error";
                     error := Some {| code := code; message := message |};
                     result := None |} in
  let encrypted := nip04_encrypt E (secret (config this)) (ev_pubkey requestEvent)
                     (JSON_stringify (NWCResponse_object response)) in
  event <- createSignedEvent (NWCEventKind_number RESPONSE) encrypted
             [["p"; ev_pubkey requestEvent]; ["e"; ev_id requestEvent]]
             (secret (config this)) ;;
  publish event.

Definition sendNotification (clientPubkey : string) (type : string)
    (data : value) : M unit :=
  let notification := {| notification_type := type; notification := data |} in
  let encrypted := nip04_encrypt E (secret (config this)) clientPubkey
                     (JSON_stringify (NWCNotification_object notification)) in
  event <- createSignedEvent (NWCEventKind_number NOTIFICATION) encrypted
             [["p"; clientPubkey]]
             (secret (config this)) ;;
  publish event.

Definition handlePayInvoice (params : value) : M value :=
  invoice <- js_get params "invoice" ;;
  amount <- js_get params "amount" ;;
  payment <- sendPayment E (voltage this)
               {| sp_wallet_id := walletId (config this);
                  sp_payment_request := invoice;
                  sp_amount_msats := js_or amount (JNum 0);
                  sp_max_fee_msats := JUndefined |} ;;
  ret (JObj [("preimage", opt_str (payment_request (data payment)));
             ("fees_paid", JNum (amount_msats (data payment)))]).

Definition handleMakeInvoice (params : value) : M value :=
  amount <- js_get params "amount" ;;
  description <- js_get params "description" ;;
  payment <- createPaymentRequest E (voltage this)
               {| cp_amount_msats := amount;
                  cp_wallet_id := walletId (config this);
                  cp_description := description;
                  cp_max_fee_msats := JUndefined |} ;;
  description_hash <- js_get params "description_hash" ;;
  expiry <- js_get params "expiry" ;;
  ret (JObj [("type", JStr "incoming");
             ("invoice", opt_str (payment_request (data payment)));
             ("description", description);
             ("description_hash", description_hash);
             ("payment_hash", JStr (id payment));
             ("amount", amount);
             ("created_at", unix_seconds (created_at payment));
             ("expires_at", if truthy expiry
                            then js_plus (unix_seconds (created_at payment)) expiry
                            else JUndefined);
             ("metadata", JObj [])]).

Definition handleGetBalance (_params : value) : M value :=
  ret (JObj [("balance", JNum 0)]).

Definition handleGetInfo (_params : value) : M value :=
  ret (JObj [("alias", JStr "Voltage Pay NWC");
             ("color", JStr "#ff9500");
             ("pubkey", JStr (pubkey (config this)));
             ("network", JStr "mainnet");
             ("methods", JArr (map JStr SUPPORTED_METHODS));
             ("notifications", JArr (map JStr SUPPORTED_NOTIFICATIONS))]).

Definition handleRequest (event : NostrEvent) (request : value) : M unit :=
  method <- js_get request "method" ;;
  if negb (includes SUPPORTED_METHODS method) then
    sendError event NOT_IMPLEMENTED
      ("Method " ++ js_String E method ++ " not supported")
  else
    try_catch
      (result <-
         (if is_string method "pay_invoice" then
            params <- js_get request "params" ;; handlePayInvoice params
          else if is_string method "make_invoice" then
            params <- js_get request "params" ;; handleMakeInvoice params
          else if is_string method "get_balance" then
            params <- js_get request "params" ;; handleGetBalance params
          else if is_string method "get_info" then
            params <- js_get request "params" ;; handleGetInfo params
          else
            throw (JsError ("Unhandled method: " ++ js_String E method))) ;;
       sendResponse event method result)
      (fun error =>
         match error with
         | JsError message => sendError event INTERNAL message
         | NonError _ => sendError event INTERNAL "Unknown error occurred"
         end).

(** The [onevent] callback of the subscription made in [init]. *)
Definition onevent (event : NostrEvent) : M unit :=
  try_catch
    (decrypted <- decrypt (secret (config this)) (ev_pubkey event)
                    (ev_content event) ;;
     request <- parse decrypted ;;
     handleRequest event request)
    (fun error =>
       console_error "Error handling request:" ;;
       sendError event INTERNAL "Internal error processing request").

End Service.

(** [init]: connect, subscribe, announce.  Subscribing has no effect of its
    own; the relay then calls [onevent (connected this)] per event. *)
Definition init (E : Env) (this : NWCService) : M NWCService :=
  let this' := connected this in
  publishInfoEvent E this' ;;
  ret this'.

(** Inbound events that come one after the other, each when the callback
    of the one before has settled: how a callback ends does not reach
    the next one.  The relay does not wait for a callback, so the
    callbacks of events that come closer together run interleaved; what
    is proved of one callback holds for every state of the world it is
    started in and every reply it is given. *)
Fixpoint serve (E : Env) (this : NWCService) (events : list NostrEvent) : M unit :=
  match events with
  | [] => ret tt
  | event :: rest =>
      try_catch (onevent E this event) (fun _ => ret tt) ;;
      serve E this rest
  end.

End NWC.

(** * The command-line client: its send flow *)

Module CLI.

(** [amountMsats > 0] for the result of [parseInt]. *)
Definition positive (amountMsats : value) : bool :=
  match amountMsats with
  | JNum n => (0 <? n)%Z
  | _ => false
  end.

Section Cli.

Variable E : Env.
Variable voltage : Voltage.VoltagePayments.
Variable walletId : string.

(** [paymentData]: the amount is set only when the invoice has one. *)
Definition paymentData (bolt11 : string) (amountMsats : value)
    : Voltage.SendPaymentParams :=
  {| Voltage.sp_wallet_id := walletId;
     Voltage.sp_payment_request := JStr bolt11;
     Voltage.sp_amount_msats := if positive amountMsats then amountMsats
                                else JUndefined;
     Voltage.sp_max_fee_msats := JUndefined |}.

(** [sendPayment], from the decoded invoice on: send, poll until the status
    is terminal, and report whether the payment completed. *)
Definition sendPayment (bolt11 : string) (amountMsats : value) : M bool :=
  try_catch
    (payment <- Voltage.sendPayment E voltage (paymentData bolt11 amountMsats) ;;
     result <- Voltage.pollPaymentStatus E voltage (id payment)
                 (Some Voltage.record_status) ;;
     ret (match status result with
          | completed => true
          | _ => false
          end))
    (fun error => console_error "Error:" ;; ret false).

End Cli.

End CLI.

(** * Trace observations *)

Import Voltage NWC.

(** HTTP exchanges in a trace. *)
Fixpoint http_attempts (tr : list effect) : nat :=
  match tr with
  | [] => 0
  | Fetch _ _ _ :: rest => S (http_attempts rest)
  | _ :: rest => http_attempts rest
  end.

(** Timer waits in a trace, with their durations. *)
Fixpoint sleeps (tr : list effect) : list nat :=
  match tr with
  | [] => []
  | Sleep ms :: rest => ms :: sleeps rest
  | _ :: rest => sleeps rest
  end.

(** Statuses handed to the observer, in order. *)
Fixpoint observed (tr : list effect) : list PaymentStatus :=
  match tr with
  | [] => []
  | StatusUpdate s :: rest => s :: observed rest
  | _ :: rest => observed rest
  end.

(** Events handed to the relay, in order. *)
Fixpoint published (tr : list effect) : list NostrEvent :=
  match tr with
  | [] => []
  | Publish e :: rest => e :: published rest
  | _ :: rest => published rest
  end.

(** Error logs, in order. *)
Fixpoint logged (tr : list effect) : list string :=
  match tr with
  | [] => []
  | ConsoleError l :: rest => l :: logged rest
  | _ :: rest => logged rest
  end.

(** Entries into operations of the payment client, in order. *)
Fixpoint client_calls (tr : list effect) : list ClientOp :=
  match tr with
  | [] => []
  | Call op :: rest => op :: client_calls rest
  | _ :: rest => client_calls rest
  end.

(** Fetches by id: entries into [getPayment]. *)
Fixpoint fetches_by_id (tr : list effect) : nat :=
  match tr with
  | [] => 0
  | Call (OpGetPayment _) :: rest => S (fetches_by_id rest)
  | _ :: rest => fetches_by_id rest
  end.

(** The record a reply delivers: the body of a successful answer to a GET. *)
Definition delivered (init : RequestInit) (reply : Reply) : option PaymentResponse :=
  match reply with
  | Responded r =>
      if (method init =? "GET") && ok r then http_body r else None
  | NetworkFailure _ => None
  end.

(** Records fetched by id, in order. *)
Fixpoint fetched (tr : list effect) : list PaymentResponse :=
  match tr with
  | [] => []
  | Fetch _ init reply :: rest =>
      match delivered init reply with
      | Some p => p :: fetched rest
      | None => fetched rest
      end
  | _ :: rest => fetched rest
  end.

(** Fetched records and observer calls, as they interleave. *)
Fixpoint poll_view (tr : list effect) : list (PaymentResponse + PaymentStatus) :=
  match tr with
  | [] => []
  | Fetch _ init reply :: rest =>
      match delivered init reply with
      | Some p => inl p :: poll_view rest
      | None => poll_view rest
      end
  | StatusUpdate s :: rest => inr s :: poll_view rest
  | _ :: rest => poll_view rest
  end.

(** Successful answers to the creation POST, in order. *)
Fixpoint posted (tr : list effect) : list Response :=
  match tr with
  | [] => []
  | Fetch _ init (Responded r) :: rest =>
      if (method init =? "POST") && ok r then r :: posted rest else posted rest
  | _ :: rest => posted rest
  end.


(** The observer call made for a fetched record, if there is an observer. *)
Definition notify (onStatusUpdate : option (PaymentStatus -> M unit))
    (p : PaymentResponse) : list (PaymentResponse + PaymentStatus) :=
  match onStatusUpdate with
  | Some _ => [inr (status p)]
  | None => []
  end.

(** The two sides of a view. *)
Definition records (v : list (PaymentResponse + PaymentStatus))
    : list PaymentResponse :=
  flat_map (fun x => match x with inl p => [p] | inr _ => [] end) v.

Definition notices (v : list (PaymentResponse + PaymentStatus))
    : list PaymentStatus :=
  flat_map (fun x => match x with inl _ => [] | inr s => [s] end) v.

Definition pending (p : PaymentResponse) : bool := negb (terminal (status p)).

Definition without_invoice (p : PaymentResponse) : bool :=
  negb (has_payment_request p).

(** The two exceptions raised when a poll loop gives up. *)
Definition invoice_timeout : exn :=
  JsError "Timeout waiting for payment request to be generated".

Definition polling_timeout (this : VoltagePayments) : exn :=
  JsError ("Payment status polling timed out after "
           ++ Number_toString (maxRetries this) ++ " attempts").

(** The two shapes of a response. *)
Definition result_envelope (method result : value) : NWCResponse :=
  {| result_type := method; error := None; result := Some result |}.

Definition error_envelope (c : NWCErrorCode) (msg : string) : NWCResponse :=
  {| result_type := JStr "error";
     error := Some {| code := c; message := msg |};
     result := None |}.

(** A response event for [request] that carries [response]. *)
Definition answers (E : Env) (this : NWCService) (request : NostrEvent)
    (response : NWCResponse) (e : NostrEvent) : Prop :=
  ev_kind e = 23195%Z /\
  ev_tags e = [["p"; ev_pubkey request]; ["e"; ev_id request]] /\
  ev_content e = nip04_encrypt E (secret (config this)) (ev_pubkey request)
                   (JSON_stringify (NWCResponse_object response)).

(** Bodies of the HTTP requests sent, in order. *)
Fixpoint sent_bodies (tr : list effect) : list value :=
  match tr with
  | [] => []
  | Fetch _ init _ :: rest =>
      match body init with
      | Some b => b :: sent_bodies rest
      | None => sent_bodies rest
      end
  | _ :: rest => sent_bodies rest
  end.

(** The [amount_msats] written in the [data] object of a request body. *)
Definition body_amount (body : value) : value :=
  match body with
  | JObj props =>
      match lookup "data" props with
      | JObj d => lookup "amount_msats" d
      | _ => JUndefined
      end
  | _ => JUndefined
  end.

(** Is [amount_msats] a property of the [data] object of a request body? *)
Definition body_names_amount (body : value) : bool :=
  match body with
  | JObj props =>
      match lookup "data" props with
      | JObj d => has_key "amount_msats" d
      | _ => false
      end
  | _ => false
  end.

Local Open Scope list_scope.

(** * What a run promises

    The facts proved of each operation, stated once for every run of it. *)

Section Contracts.

Variable this : VoltagePayments.

Definition fetch_contract (options : RequestInit) (retryCount : nat)
    (r : run Response) : Prop :=
  out r <> Hang /\
  1 <= http_attempts (trace r) <= S (maxRetries this - retryCount) /\
  S (List.length (sleeps (trace r))) = http_attempts (trace r) /\
  Forall (eq (retryDelay this)) (sleeps (trace r)) /\
  (forall response, out r = Ret response -> ok response = true) /\
  poll_view (trace r) =
    match out r with
    | Ret response =>
        match delivered options (Responded response) with
        | Some p => [inl p]
        | None => []
        end
    | _ => []
    end /\
  posted (trace r) =
    match out r with
    | Ret response => if method options =? "POST" then [response] else []
    | _ => []
    end /\
  published (trace r) = [] /\
  fetches_by_id (trace r) = 0.

Definition getPayment_contract (r : run PaymentResponse) : Prop :=
  out r <> Hang /\
  1 <= http_attempts (trace r) <= S (maxRetries this) /\
  poll_view (trace r) = match out r with Ret p => [inl p] | _ => [] end /\
  posted (trace r) = [] /\
  published (trace r) = [] /\
  fetches_by_id (trace r) = 1.

Definition pollLoop_contract (onStatusUpdate : option (PaymentStatus -> M unit))
    (attempts : nat) (r : run PaymentResponse) : Prop :=
  fetches_by_id (trace r) <= maxRetries this - attempts /\
  http_attempts (trace r) <= (maxRetries this - attempts) * S (maxRetries this) /\
  published (trace r) = [] /\
  posted (trace r) = [] /\
  poll_view (trace r) =
    flat_map (fun p => inl p :: notify onStatusUpdate p) (fetched (trace r)) /\
  match out r with
  | Ret p =>
      exists pre,
        fetched (trace r) = pre ++ [p] /\
        forallb pending pre = true /\
        terminal (status p) = true /\
        fetches_by_id (trace r) = S (List.length pre) /\
        (onStatusUpdate = Some record_status ->
         exists tr', trace r = tr' ++ [StatusUpdate (status p)])
  | Throw e =>
      forallb pending (fetched (trace r)) = true /\
      ((e = polling_timeout this /\
        List.length (fetched (trace r)) = maxRetries this - attempts /\
        fetches_by_id (trace r) = List.length (fetched (trace r))) \/
       fetches_by_id (trace r) = S (List.length (fetched (trace r))))
  | Hang => False
  end.

(** How the loop that waits for the invoice text can end. *)
Definition wait_outcome (attempts : nat) (r : run PaymentResponse) : Prop :=
  match out r with
  | Ret p =>
      exists pre,
        fetched (trace r) = pre ++ [p] /\
        forallb without_invoice pre = true /\
        has_payment_request p = true /\
        fetches_by_id (trace r) = S (List.length pre)
  | Throw e =>
      forallb without_invoice (fetched (trace r)) = true /\
      ((e = invoice_timeout /\
        List.length (fetched (trace r)) = maxRetries this - attempts /\
        fetches_by_id (trace r) = List.length (fetched (trace r))) \/
       fetches_by_id (trace r) = S (List.length (fetched (trace r))))
  | Hang => False
  end.

Definition waitLoop_contract (attempts : nat) (r : run PaymentResponse) : Prop :=
  fetches_by_id (trace r) <= maxRetries this - attempts /\
  http_attempts (trace r) <= (maxRetries this - attempts) * S (maxRetries this) /\
  published (trace r) = [] /\
  posted (trace r) = [] /\
  observed (trace r) = [] /\
  wait_outcome attempts r.

Definition create_contract (r : run PaymentResponse) : Prop :=
  out r <> Hang /\
  published (trace r) = [] /\
  observed (trace r) = [] /\
  fetches_by_id (trace r) <= maxRetries this /\
  http_attempts (trace r) <= S (maxRetries this) + maxRetries this * S (maxRetries this) /\
  ((posted (trace r) = [] /\ fetches_by_id (trace r) = 0 /\
    exists e, out r = Throw e) \/
   (exists response,
      posted (trace r) = [response] /\
      if (http_status response =? 202)%nat then wait_outcome 0 r
      else
        fetches_by_id (trace r) = 0 /\
        fetched (trace r) = [] /\
        out r = match http_body response with
                | Some p => Ret p
                | None => Throw (JsError "Unexpected end of JSON input")
                end)).

Definition send_contract (r : run PaymentResponse) : Prop :=
  out r <> Hang /\
  published (trace r) = [] /\
  fetches_by_id (trace r) <= 1 /\
  http_attempts (trace r) <= 2 * S (maxRetries this).

End Contracts.



(** The [method] a request carries, when it can be read. *)
Definition method_of (request : value) : value :=
  match request with
  | JObj props => lookup "method" props
  | _ => JUndefined
  end.



Definition nullish (v : value) : bool :=
  match v with
  | JUndefined | JNull => true
  | _ => false
  end.

(** * Scenarios *)

Module Scenario.

Local Open Scope string_scope.

Definition w0 : World := {| http_calls := 0; uuid_calls := 0; clock_reads := 0 |}.

Definition client (retries : nat) : VoltagePayments :=
  Configured.natural
    (Configured.new_VoltagePayments
       {| Configured.cfg_apiKey := "key";
          Configured.cfg_organizationId := "org";
          Configured.cfg_environmentId := "env";
          Configured.cfg_baseUrl := None;
          Configured.cfg_maxRetries := Some (Configured.of_nat retries);
          Configured.cfg_retryDelay := Some (Configured.of_nat 1000) |}).

Definition record (s : PaymentStatus) (invoice : option string) (d : Direction)
    : PaymentResponse :=
  {| bip21_uri := None;
     created_at := "2025-03-14T16:08:11.692963Z";
     currency := "btc";
     data := {| amount_msats := 10000;
                max_fee_msats := None;
                payment_request := invoice;
                memo := None |};
     direction := d;
     environment_id := "env";
     Payment.error := None;
     id := "11ca843c";
     organization_id := "org";
     status := s;
     updated_at := "2025-03-14T16:08:13.959324Z";
     wallet_id := "w1" |}.

Definition respond (s : nat) (b : option PaymentResponse) : Reply :=
  Responded {| http_status := s; http_body := b |}.

(** A tiny stand-in for the JSON parser: the payloads of the scenarios. *)
Definition parse_payload (text : string) : option value :=
  if text =? "pay lnbc1" then
    Some (JObj [("method", JStr "pay_invoice");
                ("params", JObj [("invoice", JStr "lnbc1")])])
  else if text =? "info" then
    Some (JObj [("method", JStr "get_info"); ("params", JObj [])])
  else if text =? "list" then
    Some (JObj [("method", JStr "list_transactions"); ("params", JObj [])])
  else if text =? "null" then Some JNull
  else None.

(** Sealed payloads keep their text readable. *)
Definition show_Z (n : Z) : string := NilEmpty.string_of_int (Z.to_int n).

Fixpoint show (v : value) : string :=
  match v with
  | JUndefined => "undefined"
  | JNull => "null"
  | JBool true => "true"
  | JBool false => "false"
  | JNum n => show_Z n
  | JNaN => "NaN"
  | JStr s => s
  | JArr items => "[" ++ fold_right (fun x acc => show x ++ ";" ++ acc) "]" items
  | JObj props =>
      "{" ++ (fix fields (l : list (string * value)) : string :=
                match l with
                | [] => "}"
                | (k, x) :: rest => k ++ "=" ++ show x ++ ";" ++ fields rest
                end) props
  end.

(** Payloads travel in clear, except one that cannot be decrypted. *)
Definition env (b : nat -> Reply) : Env :=
  {| backend := fun n _ _ => b n;
     uuidv4 := fun _ => "11ca843c";
     Date_now := fun _ => 1700000000000%Z;
     Date_getTime := fun _ => Some 1741968491692%Z;
     nip04_decrypt := fun _ _ content =>
                        if content =? "garbage" then None else Some content;
     nip04_encrypt := fun _ pk doc => "sealed for " ++ pk ++ ": " ++ show doc;
     JSON_parse := parse_payload;
     getPublicKey := fun sk => "pub:" ++ sk;
     getEventHash := fun _ _ => "hash";
     signEvent := fun _ _ => "sig";
     js_String := fun v => match v with JStr s => s | _ => "undefined" end;
     js_String_number := fun q => show_Z (Qround.Qfloor q);
     js_plus_coerce := fun _ _ => JNaN |}.

Definition gateway (retries : nat) : NWCService :=
  new_NWCService (client retries)
    {| relayUrl := "wss://relay.damus.io";
       pubkey := "pub:5ec";
       secret := "5ec";
       walletId := "w1" |}.

Definition service (retries : nat) : NWCService := connected (gateway retries).



Definition get_options : RequestInit :=
  {| method := "GET"; headers := []; body := None |}.

Definition ten_sats : CreatePaymentRequestParams :=
  {| cp_amount_msats := JNum 10000;
     cp_wallet_id := "w1";
     cp_description := JUndefined;
     cp_max_fee_msats := JUndefined |}.


Definition created : Response :=
  {| http_status := 201; http_body := Some (record receiving None receive) |}.

Definition inbound (payload : string) : NostrEvent :=
  {| ev_kind := 23194;
     ev_content := payload;
     ev_tags := [["p"; "pub:5ec"]];
     ev_created_at := 1700000000;
     ev_pubkey := "alice";
     ev_id := "req-1";
     ev_sig := "sig" |}.

(** Every call answered 403. *)
Definition always_403 : nat -> Reply := fun _ => respond 403 None.



(** The creation answered 201 with a record that has no invoice text. *)
Definition created_at_once : nat -> Reply :=
  fun _ => respond 201 (Some (record receiving None receive)).

(** A payment that is still on its way at the first fetch. *)
Definition still_sending : nat -> Reply :=
  fun n =>
    match n with
    | 0 => respond 202 None
    | _ => respond 200 (Some (record sending (Some "lnbc1") send))
    end.

(** 202 to the creation, then sending, sending, completed. *)
Definition completes_after_sending : nat -> Reply :=
  fun n =>
    match n with
    | 0 => respond 202 None
    | 1 | 2 => respond 200 (Some (record sending (Some "lnbc1") send))
    | _ => respond 200 (Some (record completed (Some "lnbc1") send))
    end.

(** receiving, receiving, completed. *)
Definition completes_on_third : nat -> Reply :=
  fun n =>
    match n with
    | 0 | 1 => respond 200 (Some (record receiving (Some "lntbs...") receive))
    | _ => respond 200 (Some (record completed (Some "lntbs...") receive))
    end.

End Scenario.

(** * Further observations *)

(** The requests sent, in order: where to and with what. *)
Fixpoint requests (tr : list effect) : list (string * RequestInit) :=
  match tr with
  | [] => []
  | Fetch url init _ :: rest => (url, init) :: requests rest
  | _ :: rest => requests rest
  end.

(** A trace without its observer calls. *)
Fixpoint without_notices (tr : list effect) : list effect :=
  match tr with
  | [] => []
  | StatusUpdate _ :: rest => without_notices rest
  | e :: rest => e :: without_notices rest
  end.

(** A reply that [fetchWithRetry] does not accept: no answer at all, or an
    answer that is not a success. *)
Definition failing (reply : Reply) : bool :=
  match reply with
  | NetworkFailure _ => true
  | Responded r => negb (ok r)
  end.

(** What [fetchWithRetry] throws for a failing reply when no attempt is
    left. *)
Definition failure_of (reply : Reply) : exn :=
  match reply with
  | NetworkFailure e => e
  | Responded r =>
      JsError ("HTTP error! status: " ++ Number_toString (http_status r))%string
  end.

(** The world [n] HTTP exchanges later. *)
Definition advance (n : nat) (w : World) : World :=
  {| http_calls := http_calls w + n;
     uuid_calls := uuid_calls w;
     clock_reads := clock_reads w |}.

(** The world one clock reading later. *)
Definition tick (w : World) : World :=
  {| http_calls := http_calls w;
     uuid_calls := uuid_calls w;
     clock_reads := S (clock_reads w) |}.

(** A run that moves the world by its HTTP exchanges and nothing else. *)
Definition advances {A : Type} (w : World) (r : run A) : Prop :=
  final r = advance (http_attempts (trace r)) w.

(** A run whose requests are all [rq]. *)
Definition requests_only {A : Type} (rq : string * RequestInit) (r : run A) : Prop :=
  Forall (eq rq) (requests (trace r)).

(** The two requests of the payment client. *)
Definition creation_request (this : VoltagePayments) (body : value)
    : string * RequestInit :=
  (getPaymentUrl this None,
   {| method := "POST";
      headers := [("Content-Type", "application/json"); ("x-api-key", apiKey this)];
      body := Some body |}).

Definition fetch_request (this : VoltagePayments) (paymentId : string)
    : string * RequestInit :=
  (getPaymentUrl this (Some paymentId),
   {| method := "GET";
      headers := [("x-api-key", apiKey this)];
      body := None |}).

(** The [id] written in a request body. *)
Definition body_id (body : value) : value :=
  match body with
  | JObj props => lookup "id" props
  | _ => JUndefined
  end.

(** An observer that returns, and does nothing but be seen. *)
Definition passive (callback : PaymentStatus -> M unit) : Prop :=
  forall s w, exists seen, callback s w = Run (Ret tt) (map StatusUpdate seen) w.

(** Two runs that differ by the observer calls of the second only. *)
Definition same_but_notices {A : Type} (quiet loud : run A) : Prop :=
  out quiet = out loud /\
  final quiet = final loud /\
  trace quiet = without_notices (trace loud).

(** The waits of a run are all [retryDelay] long, and there is one for
    each HTTP exchange that was not the last of its operation ([posts]
    creation calls and the fetches by id) and one for each fetched record
    that was [unready]. *)
Definition waits_accounted (this : VoltagePayments)
    (unready : PaymentResponse -> bool) (posts : nat)
    (r : run PaymentResponse) : Prop :=
  Forall (eq (retryDelay this)) (sleeps (trace r)) /\
  List.length (sleeps (trace r)) + fetches_by_id (trace r) + posts
  = http_attempts (trace r) + List.length (filter unready (fetched (trace r))).



(** What reading [v.key] gives when [v] is neither null nor undefined. *)
Definition property (v : value) (key : string) : value :=
  match v with
  | JObj props => lookup key props
  | _ => JUndefined
  end.

(** The [params] a request carries. *)
Definition params_of (request : value) : value := property request "params".

(** The response the gateway sends for the outcome of a handler. *)
Definition response_for (method : value) (o : outcome value) : NWCResponse :=
  match o with
  | Ret result => result_envelope method result
  | Throw (JsError msg) => error_envelope INTERNAL msg
  | Throw (NonError _) => error_envelope INTERNAL "Unknown error occurred"
  | Hang => error_envelope INTERNAL "Unknown error occurred"
  end.


(** The message of the TypeError for reading [key] of null or undefined. *)
Definition missing_property_message (v : value) (key : string) : string :=
  ("Cannot read properties of "
   ++ match v with JNull => "null" | _ => "undefined" end
   ++ " (reading '" ++ key ++ "')")%string.





(** A notification event for [clientPubkey]. *)
Definition notifies (E : Env) (this : NWCService) (clientPubkey : string)
    (n : NWCNotification) (e : NostrEvent) : Prop :=
  ev_kind e = NWCEventKind_number NOTIFICATION /\
  ev_tags e = [["p"; clientPubkey]]%string /\
  ev_pubkey e = getPublicKey E (secret (config this)) /\
  ev_content e = nip04_encrypt E (secret (config this)) clientPubkey
                   (JSON_stringify (NWCNotification_object n)).


(** The exception of a poll that gave up, for any [maxRetries]. *)
Definition polling_gave_up (E : Env) (this : Configured.VoltagePayments) : exn :=
  JsError ("Payment status polling timed out after "
           ++ Configured.number_text E (Configured.maxRetries this)
           ++ " attempts")%string.

(** What the command-line flows report: success only for a payment whose
    last fetched record is completed; otherwise that record is failed, or
    an error was logged last. *)
Definition reported (r : run bool) : Prop :=
  match out r with
  | Ret true =>
      exists pre p, fetched (trace r) = pre ++ [p] /\ status p = completed
  | Ret false =>
      (exists pre p, fetched (trace r) = pre ++ [p] /\ status p = failed) \/
      (exists tr, trace r = tr ++ [ConsoleError "Error:"])
  | Throw _ => False
  | Hang => False
  end.

(** * The command-line client: its receive flow *)

Module CLIReceive.

Section Cli.

Variable E : Env.
Variable voltage : VoltagePayments.
Variable walletId : string.

(** [parseInt(text) * 1000]; [None] is NaN. *)
Definition msats (sats : option Z) : value :=
  match sats with
  | Some n => JNum (n * 1000)
  | None => JNaN
  end.

(** [receivePayment], from the answers to its two questions on: [amount]
    is what [parseInt] made of the first, [maxFee] of the second when it
    was not left empty.  Create the request, poll until the status is
    terminal, and report whether the payment completed. *)
Definition receivePayment (amount : option Z) (maxFee : option (option Z))
    : M bool :=
  try_catch
    (payment <- createPaymentRequest E voltage
                  {| cp_amount_msats := msats amount;
                     cp_wallet_id := walletId;
                     cp_description := JStr "CLI payment request";
                     cp_max_fee_msats := match maxFee with
                                         | Some fee => msats fee
                                         | None => JUndefined
                                         end |} ;;
     result <- pollPaymentStatus E voltage (id payment) (Some record_status) ;;
     ret (match status result with
          | completed => true
          | _ => false
          end))
    (fun error => console_error "Error:" ;; ret false).

End Cli.

End CLIReceive.

(** * Further scenarios *)

Module Cases.

Import Scenario.

Local Open Scope string_scope.

(** No answer, then a 500, then the record. *)
Definition recovers_on_third : nat -> Reply :=
  fun n =>
    match n with
    | 0 => NetworkFailure (JsError "socket hang up")
    | 1 => respond 500 None
    | _ => respond 200 (Some (record completed (Some "lnbc1") send))
    end.

Definition delivered_record : Response :=
  {| http_status := 200;
     http_body := Some (record completed (Some "lnbc1") send) |}.

Definition payment_url : string := getPaymentUrl (client 5) (Some "11ca843c").

(** Clients as the constructor makes them. *)
Definition settings (retries : option Configured.number) : Configured.VoltageConfig :=
  {| Configured.cfg_apiKey := "key";
     Configured.cfg_organizationId := "org";
     Configured.cfg_environmentId := "env";
     Configured.cfg_baseUrl := None;
     Configured.cfg_maxRetries := retries;
     Configured.cfg_retryDelay := Some (Configured.of_nat 1000) |}.

Definition configured (retries : option Configured.number)
    : Configured.VoltagePayments :=
  Configured.new_VoltagePayments (settings retries).

(** A backend that is never reached. *)
Definition no_network : nat -> Reply :=
  fun _ => NetworkFailure (JsError "socket hang up").

(** Requests as they arrive once parsed. *)
Definition get_balance_request : value :=
  JObj [("method", JStr "get_balance")].

Definition pay_without_params : value :=
  JObj [("method", JStr "pay_invoice")].

Definition make_with_null_params : value :=
  JObj [("method", JStr "make_invoice"); ("params", JNull)].



End Cases.

(** * Proofs *)

#[local] Arguments Nat.ltb : simpl never.
#[local] Arguments Nat.leb : simpl never.
#[local] Arguments Nat.eqb : simpl never.
#[local] Arguments Nat.sub : simpl never.
#[local] Arguments Nat.mul : simpl never.
#[local] Arguments String.eqb : simpl never.
#[local] Arguments String.append : simpl never.
#[local] Arguments Number_toString : simpl never.
#[local] Arguments JSON_stringify : simpl never.
#[local] Arguments Z.div : simpl never.
#[local] Arguments sendError : simpl never.
#[local] Arguments sendResponse : simpl never.
#[local] Arguments handleRequest : simpl never.

(** * Observations of a trace made of two parts *)

Lemma http_attempts_app (a b : list effect) :
  http_attempts (a ++ b) = http_attempts a + http_attempts b.
Proof.
  induction a as [|e a IH]; simpl; [reflexivity|].
  destruct e; simpl; rewrite IH; reflexivity.
Qed.

Lemma sleeps_app (a b : list effect) : sleeps (a ++ b) = sleeps a ++ sleeps b.
Proof.
  induction a as [|e a IH]; simpl; [reflexivity|].
  destruct e; simpl; rewrite IH; reflexivity.
Qed.

Lemma observed_app (a b : list effect) :
  observed (a ++ b) = observed a ++ observed b.
Proof.
  induction a as [|e a IH]; simpl; [reflexivity|].
  destruct e; simpl; rewrite IH; reflexivity.
Qed.

Lemma published_app (a b : list effect) :
  published (a ++ b) = published a ++ published b.
Proof.
  induction a as [|e a IH]; simpl; [reflexivity|].
  destruct e; simpl; rewrite IH; reflexivity.
Qed.

Lemma logged_app (a b : list effect) : logged (a ++ b) = logged a ++ logged b.
Proof.
  induction a as [|e a IH]; simpl; [reflexivity|].
  destruct e; simpl; rewrite IH; reflexivity.
Qed.

Lemma client_calls_app (a b : list effect) :
  client_calls (a ++ b) = client_calls a ++ client_calls b.
Proof.
  induction a as [|e a IH]; simpl; [reflexivity|].
  destruct e; simpl; rewrite IH; reflexivity.
Qed.

Lemma fetches_by_id_app (a b : list effect) :
  fetches_by_id (a ++ b) = fetches_by_id a + fetches_by_id b.
Proof.
  induction a as [|e a IH]; simpl; [reflexivity|].
  destruct e as [| | | | |[]]; simpl; rewrite IH; reflexivity.
Qed.

Lemma fetched_app (a b : list effect) : fetched (a ++ b) = fetched a ++ fetched b.
Proof.
  induction a as [|e a IH]; simpl; [reflexivity|].
  destruct e as [u i y| | | | |]; simpl; rewrite IH; try reflexivity.
  destruct (delivered i y); reflexivity.
Qed.

Lemma poll_view_app (a b : list effect) :
  poll_view (a ++ b) = poll_view a ++ poll_view b.
Proof.
  induction a as [|e a IH]; simpl; [reflexivity|].
  destruct e as [u i y| | | | |]; simpl; rewrite IH; try reflexivity.
  destruct (delivered i y); reflexivity.
Qed.

Lemma posted_app (a b : list effect) : posted (a ++ b) = posted a ++ posted b.
Proof.
  induction a as [|e a IH]; simpl; [reflexivity|].
  destruct e as [u i [x|r]| | | | |]; simpl; rewrite IH; try reflexivity.
  destruct ((method i =? "POST") && ok r); reflexivity.
Qed.

Create Rewrite HintDb trace.
#[local] Hint Rewrite http_attempts_app sleeps_app observed_app published_app
  logged_app client_calls_app fetches_by_id_app fetched_app poll_view_app
  posted_app : trace.


Lemma fetched_view (tr : list effect) : fetched tr = records (poll_view tr).
Proof.
  unfold records.
  induction tr as [|e tr IH]; [reflexivity|].
  destruct e as [u i y| | | | |]; cbn; try assumption.
  destruct (delivered i y); cbn; congruence.
Qed.

Lemma observed_view (tr : list effect) : observed tr = notices (poll_view tr).
Proof.
  unfold notices.
  induction tr as [|e tr IH]; [reflexivity|].
  destruct e as [u i y| | | | |]; cbn; try assumption; try congruence.
  destruct (delivered i y); cbn; congruence.
Qed.

Lemma retry_budget (m a h t : nat) :
  a < m -> h <= S m -> t <= (m - S a) * S m -> h + t <= (m - a) * S m.
Proof.
  intros Ha Hh Ht.
  replace (m - a) with (S (m - S a)) by lia.
  rewrite Nat.mul_succ_l. lia.
Qed.





Section ClientFacts.

Variable E : Env.
Variable this : VoltagePayments.

Lemma fetchWithRetry_fuel_facts (fuel : nat) :
  forall url options retryCount w,
    maxRetries this - retryCount < fuel ->
    fetch_contract this options retryCount
      (fetchWithRetry_fuel E this fuel url options retryCount w).
Proof.
  induction fuel as [|fuel IH]; intros url options retryCount w Hfuel; [lia|].
  assert (Hdel : forall resp, ok resp = false ->
            delivered (with_api_key this options) (Responded resp) = None).
  { intros resp Hok. unfold delivered. rewrite Hok, andb_false_r. reflexivity. }
  assert (Hpost : forall resp, ok resp = false ->
            (method options =? "POST") && ok resp = false).
  { intros resp Hok. rewrite Hok, andb_false_r. reflexivity. }
  assert (Hnext : (retryCount <? maxRetries this)%nat = true -> forall w',
            fetch_contract this options (S retryCount)
              (fetchWithRetry_fuel E this fuel url options (S retryCount) w')).
  { intros Hlt w'. apply Nat.ltb_lt in Hlt. apply IH. lia. }
  cbn [fetchWithRetry_fuel]. unfold bind, try_catch, fetch.
  destruct (backend E (http_calls w) url (with_api_key this options))
    as [e|resp] eqn:Hreply; cbn.
  - destruct (retryCount <? maxRetries this)%nat eqn:Hlt; cbn.
    + specialize (Hnext eq_refl). apply Nat.ltb_lt in Hlt.
      match goal with |- context [fetchWithRetry_fuel E this fuel url options _ ?w'] =>
        specialize (Hnext w');
        destruct (fetchWithRetry_fuel E this fuel url options (S retryCount) w')
          as [o tr wf]
      end.
      unfold fetch_contract in *; cbn in *.
      destruct Hnext as (H1 & H2 & H3 & H4 & H5 & H6 & H7 & H8 & H9).
      repeat split; try assumption; try lia.
      constructor; [reflexivity|assumption].
    + unfold fetch_contract; cbn.
      repeat split; try lia; try discriminate. constructor.
  - destruct ((http_status resp =? 404)%nat && (retryCount <? maxRetries this)%nat)
      eqn:Hretry; cbn.
    + apply andb_true_iff in Hretry. destruct Hretry as [H404 Hlt].
      specialize (Hnext Hlt).
      apply Nat.eqb_eq in H404. apply Nat.ltb_lt in Hlt.
      assert (Hok : ok resp = false).
      { unfold ok. rewrite H404. reflexivity. }
      match goal with |- context [fetchWithRetry_fuel E this fuel url options _ ?w'] =>
        specialize (Hnext w');
        destruct (fetchWithRetry_fuel E this fuel url options (S retryCount) w')
          as [o tr wf]
      end.
      unfold fetch_contract in *; cbn in *.
      rewrite Hok, !andb_false_r.
      destruct Hnext as (H1 & H2 & H3 & H4 & H5 & H6 & H7 & H8 & H9).
      repeat split; try assumption; try lia.
      constructor; [reflexivity|assumption].
    + destruct (ok resp) eqn:Hok; cbn.
      * unfold fetch_contract; cbn.
        rewrite Hok, !andb_true_r.
        repeat split; try lia; try discriminate.
        -- constructor.
        -- intros response Hret. injection Hret as <-. assumption.
      * destruct (retryCount <? maxRetries this)%nat eqn:Hlt; cbn.
        -- specialize (Hnext eq_refl). apply Nat.ltb_lt in Hlt.
           match goal with |- context [fetchWithRetry_fuel E this fuel url options _ ?w'] =>
             specialize (Hnext w');
             destruct (fetchWithRetry_fuel E this fuel url options (S retryCount) w')
               as [o tr wf]
           end.
           unfold fetch_contract in *; cbn in *.
           rewrite Hok, !andb_false_r.
           destruct Hnext as (H1 & H2 & H3 & H4 & H5 & H6 & H7 & H8 & H9).
           repeat split; try assumption; try lia.
           constructor; [reflexivity|assumption].
        -- unfold fetch_contract; cbn.
           rewrite Hok, !andb_false_r.
           repeat split; try lia; try discriminate. constructor.
Qed.

(** Fuel beyond the attempts that are left changes nothing. *)
Lemma fetchWithRetry_fuel_enough (fuel : nat) :
  forall fuel' url options retryCount w,
    maxRetries this - retryCount < fuel ->
    maxRetries this - retryCount < fuel' ->
    fetchWithRetry_fuel E this fuel url options retryCount w =
    fetchWithRetry_fuel E this fuel' url options retryCount w.
Proof.
  induction fuel as [|fuel IH]; intros fuel' url options retryCount w H1 H2; [lia|].
  destruct fuel' as [|fuel']; [lia|].
  assert (Hnext : (retryCount <? maxRetries this)%nat = true -> forall w',
            fetchWithRetry_fuel E this fuel url options (S retryCount) w' =
            fetchWithRetry_fuel E this fuel' url options (S retryCount) w').
  { intros Hlt w'. apply Nat.ltb_lt in Hlt. apply IH; lia. }
  cbn [fetchWithRetry_fuel]. unfold bind, try_catch, fetch.
  destruct (backend E (http_calls w) url (with_api_key this options))
    as [e|resp]; cbn.
  - destruct (retryCount <? maxRetries this)%nat eqn:Hlt; cbn;
      [rewrite (Hnext eq_refl)|]; reflexivity.
  - destruct ((http_status resp =? 404)%nat && (retryCount <? maxRetries this)%nat)
      eqn:Hretry; cbn.
    + apply andb_true_iff in Hretry. destruct Hretry as [_ Hlt].
      rewrite (Hnext Hlt). reflexivity.
    + destruct (ok resp); cbn; [reflexivity|].
      destruct (retryCount <? maxRetries this)%nat eqn:Hlt; cbn;
        [rewrite (Hnext eq_refl)|]; reflexivity.
Qed.



Lemma fetchWithRetry_facts (url : string) (options : RequestInit) (w : World) :
  fetch_contract this options 0 (fetchWithRetry E this url options 0 w).
Proof.
  unfold fetchWithRetry. apply fetchWithRetry_fuel_facts. lia.
Qed.

Lemma getPayment_facts (paymentId : string) (w : World) :
  getPayment_contract this (getPayment E this paymentId w).
Proof.
  unfold getPayment, bind, emit.
  match goal with |- context [fetchWithRetry E this ?u ?i 0 ?w'] =>
    pose proof (fetchWithRetry_facts u i w') as H;
    destruct (fetchWithRetry E this u i 0 w') as [o tr wf]
  end.
  unfold fetch_contract in H. cbn in H. rewrite Nat.sub_0_r in H.
  destruct H as (H1 & H2 & H3 & H4 & H5 & H6 & H7 & H8 & H9).
  unfold getPayment_contract.
  destruct o as [response| |]; cbn; [|repeat split; (assumption || lia || discriminate)|congruence].
  specialize (H5 response eq_refl). rewrite H5 in H6.
  unfold json, ret, throw.
  destruct (http_body response) as [p|]; cbn; autorewrite with trace; cbn;
    rewrite ?app_nil_r; repeat split; try assumption; try lia; try discriminate.
Qed.

(** The status loop, with the recording observer or with none. *)
Lemma pollLoop_facts (onStatusUpdate : option (PaymentStatus -> M unit))
    (Hobs : onStatusUpdate = None \/ onStatusUpdate = Some record_status)
    (fuel : nat) :
  forall paymentId attempts w,
    maxRetries this - attempts < fuel ->
    pollLoop_contract this onStatusUpdate attempts
      (pollLoop E this fuel paymentId onStatusUpdate attempts w).
Proof.
  induction fuel as [|fuel IH]; intros paymentId attempts w Hfuel; [lia|].
  cbn [pollLoop].
  destruct (attempts <? maxRetries this)%nat eqn:Hlt.
  2:{ apply Nat.ltb_ge in Hlt. unfold throw, pollLoop_contract. cbn.
      repeat split; try lia.
      left. repeat split. lia. }
  apply Nat.ltb_lt in Hlt.
  unfold bind at 1.
  pose proof (getPayment_facts paymentId w) as G.
  destruct (getPayment E this paymentId w) as [o tg wg].
  unfold getPayment_contract in G.
  cbn in G. destruct G as (G1 & G2 & G3 & G4 & G5 & G6).
  pose proof (fetched_view tg) as Gf. rewrite G3 in Gf.
  destruct o as [p| |]; [| |congruence].
  2:{ unfold pollLoop_contract. cbn in *. rewrite Gf, G3, G4, G5, G6. cbn.
      repeat split; try lia.
      rewrite <- (Nat.add_0_r (http_attempts tg)).
      apply (retry_budget (maxRetries this) attempts);
        [lia | lia | apply Nat.le_0_l]. }
  cbn in Gf.
  unfold bind at 1.
  assert (Hcb : exists trc,
            (match onStatusUpdate with
             | Some callback => callback (status p)
             | None => ret tt
             end) wg = Run (Ret tt) trc wg /\
            poll_view trc = notify onStatusUpdate p /\
            http_attempts trc = 0 /\ fetches_by_id trc = 0 /\
            published trc = [] /\ posted trc = [] /\ fetched trc = [] /\
            (onStatusUpdate = Some record_status -> trc = [StatusUpdate (status p)])).
  { destruct Hobs as [-> | ->].
    - exists []. repeat split. discriminate.
    - exists [StatusUpdate (status p)]. repeat split. }
  destruct Hcb as (trc & -> & C1 & C2 & C3 & C4 & C5 & C6 & C7).
  destruct (terminal (status p)) eqn:Hterm.
  - unfold pollLoop_contract, ret. cbn.
    autorewrite with trace. rewrite Gf, G3, G4, G5, G6, C1, C2, C3, C4, C5, C6.
    cbn. rewrite !app_nil_r.
    repeat split; try lia.
    + apply (retry_budget (maxRetries this) attempts);
        [lia | lia | apply Nat.le_0_l].
    + exists []. repeat split; try assumption.
      intros Hrec. exists tg. rewrite (C7 Hrec). reflexivity.
  - specialize (IH paymentId (S attempts) wg ltac:(lia)).
    unfold bind, sleep, emit.
    destruct (pollLoop E this fuel paymentId onStatusUpdate (S attempts) wg)
      as [o' tr' w'].
    unfold pollLoop_contract in *.
    cbn [out trace final after] in *.
    destruct IH as (I1 & I2 & I3 & I4 & I5 & I6).
    autorewrite with trace. rewrite Gf, G3, G4, G5, G6, C1, C2, C3, C4, C5, C6, I3, I4, I5.
    cbn.
    assert (Hp : pending p = true) by (unfold pending; rewrite Hterm; reflexivity).
    repeat split; try lia.
    + apply (retry_budget (maxRetries this) attempts); [lia | lia | exact I2].
    + destruct o' as [q|e|]; [| |assumption].
      * destruct I6 as (pre & J1 & J2 & J3 & J4 & J5).
        exists (p :: pre). rewrite J1. cbn. rewrite Hp, J2.
        repeat split; try assumption; try lia.
        intros Hrec. destruct (J5 Hrec) as (t & ->).
        exists (tg ++ trc ++ Sleep (retryDelay this) :: t).
        rewrite <- !app_assoc. reflexivity.
      * destruct I6 as (J1 & J2). rewrite Hp, J1. split; [reflexivity|].
        destruct J2 as [(J2 & J3 & J4)|J2]; [left|right]; repeat split;
          try assumption; lia.
Qed.

Lemma waitForPaymentRequest_facts (fuel : nat) :
  forall paymentId attempts w,
    maxRetries this - attempts < fuel ->
    waitLoop_contract this attempts
      (waitForPaymentRequest E this fuel paymentId attempts w).
Proof.
  induction fuel as [|fuel IH]; intros paymentId attempts w Hfuel; [lia|].
  cbn [waitForPaymentRequest].
  destruct (attempts <? maxRetries this)%nat eqn:Hlt.
  2:{ apply Nat.ltb_ge in Hlt. unfold throw, waitLoop_contract, wait_outcome. cbn.
      repeat split; try lia.
      left. repeat split. lia. }
  apply Nat.ltb_lt in Hlt.
  unfold bind at 1.
  pose proof (getPayment_facts paymentId w) as G.
  destruct (getPayment E this paymentId w) as [o tg wg].
  unfold getPayment_contract in G.
  cbn in G. destruct G as (G1 & G2 & G3 & G4 & G5 & G6).
  pose proof (fetched_view tg) as Gf. rewrite G3 in Gf.
  pose proof (observed_view tg) as Go. rewrite G3 in Go.
  destruct o as [p| |]; [| |congruence].
  2:{ unfold waitLoop_contract, wait_outcome. cbn in *.
      rewrite Gf, Go, G4, G5, G6. cbn.
      repeat split; try lia.
      rewrite <- (Nat.add_0_r (http_attempts tg)).
      apply (retry_budget (maxRetries this) attempts);
        [lia | lia | apply Nat.le_0_l]. }
  cbn in Gf, Go.
  destruct (has_payment_request p) eqn:Hinv.
  - unfold waitLoop_contract, wait_outcome, ret. cbn.
    autorewrite with trace. rewrite Gf, Go, G4, G5, G6.
    cbn.
    repeat split; try lia.
    + apply (retry_budget (maxRetries this) attempts);
        [lia | lia | apply Nat.le_0_l].
    + exists []. repeat split; assumption.
  - specialize (IH paymentId (S attempts) wg ltac:(lia)).
    unfold bind, sleep, emit.
    destruct (waitForPaymentRequest E this fuel paymentId (S attempts) wg)
      as [o' tr' w'].
    unfold waitLoop_contract, wait_outcome in *.
    cbn [out trace final after] in *.
    destruct IH as (I1 & I2 & I3 & I4 & I5 & I6).
    autorewrite with trace. rewrite Gf, Go, G4, G5, G6, I3, I4, I5.
    cbn.
    assert (Hp : without_invoice p = true)
      by (unfold without_invoice; rewrite Hinv; reflexivity).
    repeat split; try lia.
    + apply (retry_budget (maxRetries this) attempts); [lia | lia | exact I2].
    + destruct o' as [q|e|]; [| |assumption].
      * destruct I6 as (pre & J1 & J2 & J3 & J4).
        exists (p :: pre). rewrite J1. cbn. rewrite Hp, J2.
        repeat split; try assumption; try lia.
      * destruct I6 as (J1 & J2). rewrite Hp, J1. split; [reflexivity|].
        destruct J2 as [(J2 & J3 & J4)|J2]; [left|right]; repeat split;
          try assumption; lia.
Qed.

Lemma pollPaymentStatus_facts (paymentId : string)
    (onStatusUpdate : option (PaymentStatus -> M unit))
    (Hobs : onStatusUpdate = None \/ onStatusUpdate = Some record_status)
    (w : World) :
  pollLoop_contract this onStatusUpdate 0
    (pollPaymentStatus E this paymentId onStatusUpdate w).
Proof.
  unfold pollPaymentStatus, bind, emit.
  pose proof (pollLoop_facts onStatusUpdate Hobs (S (maxRetries this - 0))
                paymentId 0 w ltac:(lia)) as H.
  destruct (pollLoop E this (S (maxRetries this - 0)) paymentId onStatusUpdate 0 w)
    as [o tr wf].
  unfold pollLoop_contract in *. cbn [out trace final after] in *.
  destruct H as (H1 & H2 & H3 & H4 & H5 & H6).
  cbn. repeat split; try assumption.
  destruct o as [p|e|]; [|assumption|assumption].
  destruct H6 as (pre & J1 & J2 & J3 & J4 & J5).
  exists pre. repeat split; try assumption.
  intros Hrec. destruct (J5 Hrec) as (t & ->).
  exists (Call (OpPollPaymentStatus paymentId) :: t). reflexivity.
Qed.

Lemma createPaymentRequest_facts (params : CreatePaymentRequestParams) (w : World) :
  create_contract this (createPaymentRequest E this params w).
Proof.
  unfold createPaymentRequest, bind, emit, fresh_uuid.
  match goal with |- context [fetchWithRetry E this ?u ?i 0 ?w'] =>
    pose proof (fetchWithRetry_facts u i w') as H;
    destruct (fetchWithRetry E this u i 0 w') as [o tr wf]
  end.
  unfold fetch_contract in H. cbn in H. rewrite Nat.sub_0_r in H.
  destruct H as (H1 & H2 & H3 & H4 & H5 & H6 & H7 & H8 & H9).
  pose proof (fetched_view tr) as Hf.
  pose proof (observed_view tr) as Ho.
  assert (Hv : poll_view tr = []).
  { rewrite H6. destruct o; reflexivity. }
  rewrite Hv in Hf, Ho. cbn in Hf, Ho.
  destruct o as [response|e|]; [| |congruence].
  2:{ unfold create_contract. cbn. rewrite H7, H8, H9, Ho.
      repeat split; try lia; try discriminate.
      left. repeat split. exists e. reflexivity. }
  change (("POST" =? "POST")%string) with true in H7. cbv iota in H7.
  destruct (http_status response =? 202)%nat eqn:H202.
  - pose proof (waitForPaymentRequest_facts (S (maxRetries this - 0))
                  (uuidv4 E (uuid_calls w)) 0 wf ltac:(lia)) as Hw.
    destruct (waitForPaymentRequest E this (S (maxRetries this - 0))
                (uuidv4 E (uuid_calls w)) 0 wf) as [o' tr' w'].
    unfold create_contract, waitLoop_contract, wait_outcome in *.
    cbn [out trace final after] in *. rewrite Nat.sub_0_r in Hw.
    destruct Hw as (W1 & W2 & W3 & W4 & W5 & W6).
    cbn. autorewrite with trace. rewrite H7, H8, H9, Ho, Hf, W3, W4, W5.
    cbn.
    repeat split; try lia.
    + destruct o'; [discriminate|discriminate|contradiction].
    + right. exists response. split; [reflexivity|].
      rewrite H202. rewrite Nat.sub_0_r. exact W6.
  - unfold create_contract, json, ret, throw.
    destruct (http_body response) as [p|] eqn:Hb; cbn;
      autorewrite with trace; rewrite H7, H8, H9, Ho, Hf; cbn;
      (repeat split; try lia; try discriminate;
       right; exists response; split; [reflexivity|];
       rewrite H202, Hb; repeat split).
Qed.

Lemma sendPayment_facts (params : SendPaymentParams) (w : World) :
  send_contract this (sendPayment E this params w).
Proof.
  unfold sendPayment, bind, emit, fresh_uuid.
  match goal with |- context [fetchWithRetry E this ?u ?i 0 ?w'] =>
    pose proof (fetchWithRetry_facts u i w') as H;
    destruct (fetchWithRetry E this u i 0 w') as [o tr wf]
  end.
  unfold fetch_contract in H. cbn in H. rewrite Nat.sub_0_r in H.
  destruct H as (H1 & H2 & H3 & H4 & H5 & H6 & H7 & H8 & H9).
  destruct o as [response|e|]; [| |congruence].
  2:{ unfold send_contract. cbn. rewrite H8, H9.
      repeat split; try lia; try discriminate. }
  destruct (http_status response =? 202)%nat eqn:H202.
  - pose proof (getPayment_facts (uuidv4 E (uuid_calls w)) wf) as G.
    destruct (getPayment E this (uuidv4 E (uuid_calls w)) wf) as [o' tg wg].
    unfold getPayment_contract, send_contract in *.
    cbn [out trace final after] in *.
    destruct G as (G1 & G2 & G3 & G4 & G5 & G6).
    cbn. autorewrite with trace. rewrite H8, H9, G5, G6.
    repeat split; try assumption; lia.
  - unfold send_contract, json, ret, throw.
    destruct (http_body response) as [p|]; cbn;
      autorewrite with trace; rewrite H8, H9; cbn;
      repeat split; try lia; try discriminate.
Qed.

End ClientFacts.


Section ClientCalls.

Variable E : Env.
Variable this : VoltagePayments.

Lemma fetchWithRetry_fuel_calls (fuel : nat) :
  forall url options retryCount w,
    client_calls (trace (fetchWithRetry_fuel E this fuel url options retryCount w))
    = [].
Proof.
  induction fuel as [|fuel IH]; intros url options retryCount w; [reflexivity|].
  cbn [fetchWithRetry_fuel]. unfold bind, try_catch, fetch.
  destruct (backend E (http_calls w) url (with_api_key this options))
    as [e|resp]; cbn.
  - destruct (retryCount <? maxRetries this)%nat; cbn; [|reflexivity].
    match goal with |- context [fetchWithRetry_fuel E this fuel ?u ?o ?c ?w'] =>
      specialize (IH u o c w');
      destruct (fetchWithRetry_fuel E this fuel u o c w') as [o' tr wf]
    end.
    exact IH.
  - destruct ((http_status resp =? 404)%nat && (retryCount <? maxRetries this)%nat);
      cbn.
    + match goal with |- context [fetchWithRetry_fuel E this fuel ?u ?o ?c ?w'] =>
        specialize (IH u o c w');
        destruct (fetchWithRetry_fuel E this fuel u o c w') as [o' tr wf]
      end.
      exact IH.
    + destruct (ok resp); cbn; [reflexivity|].
      destruct (retryCount <? maxRetries this)%nat; cbn; [|reflexivity].
      match goal with |- context [fetchWithRetry_fuel E this fuel ?u ?o ?c ?w'] =>
        specialize (IH u o c w');
        destruct (fetchWithRetry_fuel E this fuel u o c w') as [o' tr wf]
      end.
      exact IH.
Qed.

Lemma getPayment_calls (paymentId : string) (w : World) :
  client_calls (trace (getPayment E this paymentId w)) = [OpGetPayment paymentId].
Proof.
  unfold getPayment, bind, emit, fetchWithRetry.
  match goal with |- context [fetchWithRetry_fuel E this ?f ?u ?o ?c ?w'] =>
    pose proof (fetchWithRetry_fuel_calls f u o c w') as H;
    destruct (fetchWithRetry_fuel E this f u o c w') as [[response|e|] tr wf]
  end; cbn in *; try (rewrite H; reflexivity).
  unfold json, ret, throw.
  destruct (http_body response); cbn; rewrite client_calls_app, H; reflexivity.
Qed.





End ClientCalls.


Section ServiceFacts.

Variable E : Env.
Variable this : NWCService.

Lemma sendError_run (event : NostrEvent) (c : NWCErrorCode) (msg : string)
    (w : World) :
  exists e w',
    sendError E (connected this) event c msg w = Run (Ret tt) [Publish e] w' /\
    answers E this event (error_envelope c msg) e.
Proof.
  unfold sendError, bind, createSignedEvent, now, ret, publish, emit. cbn.
  eexists. eexists. split; [reflexivity|].
  unfold answers. cbn. repeat split.
Qed.

Lemma sendResponse_run (event : NostrEvent) (method result : value) (w : World) :
  exists e w',
    sendResponse E (connected this) event method result w
      = Run (Ret tt) [Publish e] w' /\
    answers E this event (result_envelope method result) e.
Proof.
  unfold sendResponse, bind, createSignedEvent, now, ret, publish, emit. cbn.
  eexists. eexists. split; [reflexivity|].
  unfold answers. cbn. repeat split.
Qed.








Lemma read_method (request : value) (w : World) :
  nullish request = false ->
  js_get request "method" w = Run (Ret (method_of request)) [] w.
Proof.
  destruct request; cbn; intros H; try discriminate; reflexivity.
Qed.

Lemma read_method_fails (request : value) (w : World) :
  nullish request = true ->
  exists e, js_get request "method" w = Run (Throw e) [] w.
Proof.
  destruct request; cbn; intros H; try discriminate; unfold throw; eauto.
Qed.




Lemma onevent_undecryptable (event : NostrEvent) (w : World) :
  nip04_decrypt E (secret (config this)) (ev_pubkey event) (ev_content event) = None ->
  exists e w',
    onevent E (connected this) event w
      = Run (Ret tt) [ConsoleError "Error handling request:"; Publish e] w' /\
    answers E this event
      (error_envelope INTERNAL "Internal error processing request") e.
Proof.
  intros Hdec. unfold onevent, try_catch, bind at 1, decrypt. cbn. rewrite Hdec.
  cbn. unfold bind, console_error, emit. cbn.
  destruct (sendError_run event INTERNAL "Internal error processing request" w)
    as (e & w' & -> & Ha).
  exists e, w'. split; [reflexivity|exact Ha].
Qed.


End ServiceFacts.

(** * The wallet-connect gateway *)

Section Gateway.

Variable E : Env.
Variable this : NWCService.


(** C2, as the code has it.  An event that cannot be decrypted is logged
    and then answered all the same: one error response with code INTERNAL
    and the message "Internal error processing request" goes to the
    sender, tagged like any other response.  The callback ends normally
    and the events that follow are served. *)
Theorem undecryptable_event_gets_internal_error (event : NostrEvent)
    (rest : list NostrEvent) (w : World) :
  nip04_decrypt E (secret (config this)) (ev_pubkey event) (ev_content event)
    = None ->
  exists e w',
    onevent E (connected this) event w
      = Run (Ret tt) [ConsoleError "Error handling request:"; Publish e] w' /\
    answers E this event
      (error_envelope INTERNAL "Internal error processing request") e /\
    serve E (connected this) (event :: rest) w
      = after [ConsoleError "Error handling request:"; Publish e]
          (serve E (connected this) rest w').
Proof.
  intros Hdec.
  destruct (onevent_undecryptable E this event w Hdec) as (e & w' & Hrun & Ha).
  exists e, w'. repeat split; try apply Ha; try exact Hrun.
  cbn [serve]. unfold bind, try_catch. rewrite Hrun. reflexivity.
Qed.


End Gateway.

(** * The payment client *)



Section PaymentClient.

Variable E : Env.
Variable this : VoltagePayments.



(** C10.  When the creation is answered with a success other than 202,
    [createPaymentRequest] returns the record of that answer as it is: it
    fetches nothing by id and does not look at the invoice text, which
    may be missing. *)
Theorem createPaymentRequest_returns_created_record
    (params : CreatePaymentRequestParams) (w : World) (response : Response)
    (p : PaymentResponse) :
  let r := createPaymentRequest E this params w in
  posted (trace r) = [response] ->
  http_status response <> 202 ->
  http_body response = Some p ->
  out r = Ret p /\
  fetches_by_id (trace r) = 0 /\
  fetched (trace r) = [].
Proof.
  intros r Hposted H202 Hbody.
  pose proof (createPaymentRequest_facts E this params w) as H.
  fold r in H. destruct H as (_ & _ & _ & _ & _ & H6).
  destruct H6 as [(Hp & _)|(response' & Hp & H6)]; [congruence|].
  rewrite Hposted in Hp. injection Hp as <-.
  apply Nat.eqb_neq in H202. rewrite H202, Hbody in H6.
  destruct H6 as (J1 & J2 & J3). repeat split; assumption.
Qed.

End PaymentClient.

(** * Any number as a setting *)

Lemma below_budget (count : nat) (limit : Configured.number) :
  limit <> Configured.PlusInfinity ->
  Configured.below count limit = (count <? Configured.budget limit)%nat.
Proof.
  intros Hfinite. destruct limit as [q| | |]; [|congruence|reflexivity|reflexivity].
  unfold Configured.below, Configured.budget.
  destruct (QArith_base.Qle_bool q (QArith_base.inject_Z (Z.of_nat count))) eqn:Hle.
  - apply QArith_base.Qle_bool_iff in Hle.
    apply Qround.Qceiling_resp_le in Hle. rewrite Qround.Qceiling_Z in Hle.
    symmetry. apply Nat.ltb_ge. lia.
  - assert (Hlt : QArith_base.Qlt (QArith_base.inject_Z (Z.of_nat count)) q).
    { apply QArith_base.Qnot_le_lt. intro H.
      apply QArith_base.Qle_bool_iff in H. congruence. }
    pose proof (Qround.Qle_ceiling q) as Hc.
    pose proof (QArith_base.Qlt_le_trans _ _ _ Hlt Hc) as H.
    rewrite <- QArith_base.Zlt_Qlt in H.
    symmetry. apply Nat.ltb_lt. lia.
Qed.

Lemma bind_cong {A B : Type} (m m' : M A) (k k' : A -> M B) (w : World) :
  m w = m' w ->
  (forall a w', k a w' = k' a w') ->
  bind m k w = bind m' k' w.
Proof.
  intros Hm Hk. unfold bind. rewrite <- Hm.
  destruct (m w) as [[a|e|] tr w']; try reflexivity. rewrite Hk. reflexivity.
Qed.



Section Natural.

Variable E : Env.
Variable this : Configured.VoltagePayments.
Hypothesis Hfinite : Configured.maxRetries this <> Configured.PlusInfinity.

Let limit : nat := Configured.budget (Configured.maxRetries this).

Lemma fetchWithRetry_natural (fuel : nat) :
  forall url options retryCount w,
    Configured.fetchWithRetry E this fuel url options retryCount w
    = fetchWithRetry_fuel E (Configured.natural this) fuel url options retryCount w.
Proof.
  induction fuel as [|fuel IH]; intros url options retryCount w; [reflexivity|].
  cbn [Configured.fetchWithRetry fetchWithRetry_fuel].
  rewrite (below_budget retryCount _ Hfinite).
  apply bind_cong; [reflexivity|].
  intros [response|] w'; [reflexivity|apply IH].
Qed.

Lemma fetchWithRetry_enough (fuel : nat) (url : string) (options : RequestInit)
    (w : World) :
  limit < fuel ->
  Configured.fetchWithRetry E this fuel url options 0 w
  = fetchWithRetry E (Configured.natural this) url options 0 w.
Proof.
  intro Hfuel. rewrite fetchWithRetry_natural. unfold fetchWithRetry.
  apply fetchWithRetry_fuel_enough; cbn [maxRetries Configured.natural];
    fold limit; lia.
Qed.

Lemma getPayment_natural (fuel : nat) (paymentId : string) (w : World) :
  limit < fuel ->
  Configured.getPayment E this fuel paymentId w
  = getPayment E (Configured.natural this) paymentId w.
Proof.
  intro Hfuel. unfold Configured.getPayment, getPayment.
  apply bind_cong; [reflexivity|]. intros _ w1.
  apply bind_cong; [|reflexivity].
  apply (fetchWithRetry_enough fuel _ _ w1 Hfuel).
Qed.



Lemma sendPayment_natural (fuel : nat) (params : SendPaymentParams) (w : World) :
  limit < fuel ->
  Configured.sendPayment E this fuel params w
  = sendPayment E (Configured.natural this) params w.
Proof.
  intro Hfuel. unfold Configured.sendPayment, sendPayment.
  apply bind_cong; [reflexivity|]. intros _ w1.
  apply bind_cong; [reflexivity|]. intros paymentId w2.
  apply bind_cong; [apply (fetchWithRetry_enough fuel _ _ w2 Hfuel)|].
  intros response w3.
  destruct (http_status response =? 202)%nat; [|reflexivity].
  apply getPayment_natural. exact Hfuel.
Qed.





End Natural.

Section Budget.

Variable E : Env.
Variable this : Configured.VoltagePayments.

(** With [Infinity] for [maxRetries] and a backend that never answers with
    a success, [fetchWithRetry] goes on for as long as it is given fuel:
    the bound on the loops needs a [maxRetries] that is not [Infinity]. *)
Lemma fetchWithRetry_goes_on_with_Infinity (url : string) (options : RequestInit)
    (fuel : nat) :
  Configured.maxRetries this = Configured.PlusInfinity ->
  (forall n, failing (backend E n url (Configured.with_api_key this options)) = true) ->
  forall retryCount w,
    exists tr wf,
      Configured.fetchWithRetry E this fuel url options retryCount w
      = Run Hang tr wf /\
      http_attempts tr = fuel.
Proof.
  intros Hinf Hfail.
  induction fuel as [|fuel IH]; intros retryCount w;
    [exists [], w; split; reflexivity|].
  cbn [Configured.fetchWithRetry]. rewrite Hinf. cbn [Configured.below].
  unfold bind at 1, try_catch, bind at 1, fetch.
  specialize (Hfail (http_calls w)).
  destruct (backend E (http_calls w) url (Configured.with_api_key this options))
    as [e|resp]; cbn in Hfail |- *.
  - match goal with |- context [Configured.fetchWithRetry E this fuel ?u ?o ?c ?w'] =>
      destruct (IH c w') as (tr & wf & -> & I2)
    end.
    cbn. eexists. eexists. split; [reflexivity|]. cbn. rewrite I2. reflexivity.
  - rewrite andb_true_r.
    destruct (http_status resp =? 404)%nat; cbn.
    + match goal with |- context [Configured.fetchWithRetry E this fuel ?u ?o ?c ?w'] =>
        destruct (IH c w') as (tr & wf & -> & I2)
      end.
      cbn. eexists. eexists. split; [reflexivity|]. cbn. rewrite I2. reflexivity.
    + rewrite Hfail. cbn.
      match goal with |- context [Configured.fetchWithRetry E this fuel ?u ?o ?c ?w'] =>
        destruct (IH c w') as (tr & wf & -> & I2)
      end.
      cbn. eexists. eexists. split; [reflexivity|]. cbn. rewrite I2. reflexivity.
Qed.


End Budget.

Section RetryStep.

Variable E : Env.
Variable this : VoltagePayments.

(** Any answer that is not a success, 403 as much as 500, is followed by a
    wait and another attempt while attempts are left. *)
Lemma fetchWithRetry_retries_http_error (fuel : nat) (url : string)
    (options : RequestInit) (retryCount : nat) (w : World) (resp : Response) :
  backend E (http_calls w) url (with_api_key this options) = Responded resp ->
  ok resp = false ->
  (http_status resp =? 404)%nat = false ->
  retryCount < maxRetries this ->
  fetchWithRetry_fuel E this (S fuel) url options retryCount w
  = after [Fetch url (with_api_key this options) (Responded resp);
           ConsoleError "Error response:";
           ConsoleError "Error fetching with retry:";
           Sleep (retryDelay this)]
      (fetchWithRetry_fuel E this fuel url options (S retryCount)
         {| http_calls := S (http_calls w);
            uuid_calls := uuid_calls w;
            clock_reads := clock_reads w |}).
Proof.
  intros Hreply Hok H404 Hlt. apply Nat.ltb_lt in Hlt.
  cbn [fetchWithRetry_fuel]. unfold bind, try_catch, fetch.
  rewrite Hreply. cbn. rewrite H404. cbn. rewrite Hok. cbn. rewrite Hlt. cbn.
  destruct (fetchWithRetry_fuel E this fuel url options (S retryCount) _);
    reflexivity.
Qed.

End RetryStep.

(** * The code on concrete inputs *)

Import Scenario.

(** C3.  The backend answers every call 403 and [maxRetries] is 2:
    [fetchWithRetry] makes three attempts, waiting [retryDelay] twice,
    before it throws.  The [throw] for a non-404 error sits inside the
    [try] whose [catch] retries, so a 403 is retried like a 404. *)
Theorem fetchWithRetry_retries_403 :
  let r := fetchWithRetry (env always_403) (client 2)
             (getPaymentUrl (client 2) (Some "11ca843c")) get_options 0 w0 in
  out r = Throw (JsError "HTTP error! status: 403") /\
  http_attempts (trace r) = 3 /\
  sleeps (trace r) = [1000; 1000].
Proof.
  vm_compute. repeat split.
Qed.

(** C6.  Given the amount 0, [sendPayment] writes [amount_msats: 0] into
    the body it posts; the field is left out only when the amount is
    undefined.  A [pay_invoice] request without an amount reaches
    [sendPayment] with 0 and so posts the field. *)
Theorem sendPayment_body_names_zero_amount (paymentId wallet : string)
    (invoice fee : value) :
  let zero := {| sp_wallet_id := wallet;
                 sp_payment_request := invoice;
                 sp_amount_msats := JNum 0;
                 sp_max_fee_msats := fee |} in
  body_names_amount (sendPayment_body paymentId zero) = true /\
  body_amount (sendPayment_body paymentId zero) = JNum 0 /\
  map body_amount
    (sent_bodies
       (trace (onevent (env still_sending) (service 2) (inbound "pay lnbc1") w0)))
    = [JNum 0].
Proof.
  split; [reflexivity|]. split; [reflexivity|]. vm_compute. reflexivity.
Qed.

Lemma sendPayment_body_omits_undefined_amount (paymentId wallet : string)
    (invoice fee : value) :
  body_names_amount
    (sendPayment_body paymentId
       {| sp_wallet_id := wallet;
          sp_payment_request := invoice;
          sp_amount_msats := JUndefined;
          sp_max_fee_msats := fee |})
  = false.
Proof.
  destruct fee, invoice; reflexivity.
Qed.

Lemma sendPayment_body_names_given_amount (paymentId wallet : string)
    (invoice fee : value) (n : Z) :
  body_amount
    (sendPayment_body paymentId
       {| sp_wallet_id := wallet;
          sp_payment_request := invoice;
          sp_amount_msats := JNum n;
          sp_max_fee_msats := fee |})
  = JNum n.
Proof.
  reflexivity.
Qed.

(** The command-line flow leaves the amount out of the body when the
    invoice carries none. *)
Lemma cli_omits_zero_amount (paymentId wallet bolt11 : string) :
  body_names_amount
    (sendPayment_body paymentId (CLI.paymentData wallet bolt11 (JNum 0))) = false.
Proof.
  reflexivity.
Qed.

(** The command-line flow polls after sending and reports success on the
    completed record only. *)
Lemma cli_waits_for_completion :
  let r := CLI.sendPayment (env completes_after_sending) (client 5) "w1"
             "lnbc1" (JNum 10000) w0 in
  out r = Ret true /\
  observed (trace r) = [sending; completed] /\
  map status (fetched (trace r)) = [sending; sending; completed].
Proof.
  vm_compute. repeat split.
Qed.

(** C8.  The creation is answered 202 and the one fetch that follows
    finds the payment still in [sending]: the gateway answers
    [pay_invoice] at once with a result whose [preimage] and [fees_paid]
    are read from that record, though it is not completed. *)
Theorem pay_invoice_answers_before_completion :
  let r := onevent (env still_sending) (service 2) (inbound "pay lnbc1") w0 in
  map status (fetched (trace r)) = [sending] /\
  client_calls (trace r) = [OpSendPayment; OpGetPayment "11ca843c"] /\
  map ev_content (published (trace r))
    = ["sealed for alice: {result_type=pay_invoice;error=null;result={preimage=lnbc1;fees_paid=10000;};}"%string].
Proof.
  vm_compute. repeat split.
Qed.

(** C2, read as "logged only", does not hold: this event cannot be
    decrypted, and a response is published for it. *)
Lemma undecryptable_event_is_answered :
  nip04_decrypt (env still_sending) (secret (config (service 2)))
    (ev_pubkey (inbound "garbage")) (ev_content (inbound "garbage")) = None /\
  published (trace (onevent (env still_sending) (service 2) (inbound "garbage") w0))
    <> [].
Proof.
  split; [reflexivity|]. vm_compute. discriminate.
Qed.

(** * The theorems at work *)


Lemma undecryptable_event_gets_internal_error_witness :
  nip04_decrypt (env still_sending) "5ec" "alice" "garbage" = None /\
  exists e w',
    onevent (env still_sending) (service 2) (inbound "garbage") w0
      = Run (Ret tt) [ConsoleError "Error handling request:"; Publish e] w' /\
    answers (env still_sending) (gateway 2) (inbound "garbage")
      (error_envelope INTERNAL "Internal error processing request") e /\
    serve (env still_sending) (service 2) [inbound "garbage"; inbound "info"] w0
      = after [ConsoleError "Error handling request:"; Publish e]
          (serve (env still_sending) (service 2) [inbound "info"] w').
Proof.
  split; [reflexivity|].
  apply (undecryptable_event_gets_internal_error (env still_sending) (gateway 2)
           (inbound "garbage") [inbound "info"] w0).
  reflexivity.
Defined.





Lemma createPaymentRequest_returns_created_record_witness :
  let r := createPaymentRequest (env created_at_once) (client 2) ten_sats w0 in
  posted (trace r) = [created] /\
  http_status created <> 202 /\
  http_body created = Some (record receiving None receive) /\
  has_payment_request (record receiving None receive) = false /\
  out r = Ret (record receiving None receive) /\
  fetches_by_id (trace r) = 0 /\
  fetched (trace r) = [].
Proof.
  split; [reflexivity|]. split; [simpl; lia|].
  split; [reflexivity|]. split; [reflexivity|].
  apply (createPaymentRequest_returns_created_record (env created_at_once)
           (client 2) ten_sats w0 created (record receiving None receive));
    [reflexivity | simpl; lia | reflexivity].
Defined.

(** * Further properties *)

(** * More on the payment client *)

Lemma requests_app (a b : list effect) : requests (a ++ b) = requests a ++ requests b.
Proof.
  induction a as [|e a IH]; simpl; [reflexivity|].
  destruct e; simpl; rewrite IH; reflexivity.
Qed.

Lemma without_notices_app (a b : list effect) :
  without_notices (a ++ b) = without_notices a ++ without_notices b.
Proof.
  induction a as [|e a IH]; simpl; [reflexivity|].
  destruct e; simpl; rewrite IH; reflexivity.
Qed.

Lemma without_notices_quiet (tr : list effect) :
  observed tr = [] -> without_notices tr = tr.
Proof.
  induction tr as [|e tr IH]; [reflexivity|].
  destruct e; simpl; intros H; try discriminate; rewrite IH; auto.
Qed.

Lemma logs_attempts (labels : list string) :
  http_attempts (map ConsoleError labels) = 0.
Proof. induction labels; [reflexivity|assumption]. Qed.

Lemma logs_sleeps (labels : list string) : sleeps (map ConsoleError labels) = [].
Proof. induction labels; [reflexivity|assumption]. Qed.

Lemma logs_requests (labels : list string) : requests (map ConsoleError labels) = [].
Proof. induction labels; [reflexivity|assumption]. Qed.

Section RetryRuns.

Variable E : Env.
Variable this : VoltagePayments.

(** One failed attempt with attempts left: the exchange, what is logged, a
    wait, and the next attempt. *)
Lemma fetchWithRetry_failed_attempt (fuel : nat) (url : string)
    (options : RequestInit) (retryCount : nat) (w : World) :
  failing (backend E (http_calls w) url (with_api_key this options)) = true ->
  retryCount < maxRetries this ->
  exists labels,
    fetchWithRetry_fuel E this (S fuel) url options retryCount w
    = after (Fetch url (with_api_key this options)
               (backend E (http_calls w) url (with_api_key this options))
             :: map ConsoleError labels ++ [Sleep (retryDelay this)])
        (fetchWithRetry_fuel E this fuel url options (S retryCount) (advance 1 w)).
Proof.
  intros Hfail Hlt. apply Nat.ltb_lt in Hlt.
  assert (Hw : advance 1 w = {| http_calls := S (http_calls w);
                                uuid_calls := uuid_calls w;
                                clock_reads := clock_reads w |}).
  { unfold advance. rewrite Nat.add_1_r. reflexivity. }
  rewrite Hw.
  destruct (backend E (http_calls w) url (with_api_key this options))
    as [e|resp] eqn:Hreply; cbn in Hfail.
  - exists ["Error fetching with retry:"].
    cbn [fetchWithRetry_fuel]. unfold bind, try_catch, fetch.
    rewrite Hreply. cbn. rewrite Hlt. cbn.
    destruct (fetchWithRetry_fuel E this fuel url options (S retryCount) _);
      reflexivity.
  - apply negb_true_iff in Hfail.
    destruct (http_status resp =? 404)%nat eqn:H404.
    + exists [].
      cbn [fetchWithRetry_fuel]. unfold bind, try_catch, fetch.
      rewrite Hreply. cbn. rewrite H404, Hlt. cbn.
      destruct (fetchWithRetry_fuel E this fuel url options (S retryCount) _);
        reflexivity.
    + exists ["Error response:"; "Error fetching with retry:"].
      cbn [fetchWithRetry_fuel]. unfold bind, try_catch, fetch.
      rewrite Hreply. cbn. rewrite H404. cbn. rewrite Hfail. cbn. rewrite Hlt. cbn.
      destruct (fetchWithRetry_fuel E this fuel url options (S retryCount) _);
        reflexivity.
Qed.

(** The last attempt failing: the failure is thrown. *)
Lemma fetchWithRetry_last_attempt (fuel : nat) (url : string)
    (options : RequestInit) (retryCount : nat) (w : World) :
  failing (backend E (http_calls w) url (with_api_key this options)) = true ->
  maxRetries this <= retryCount ->
  exists labels,
    fetchWithRetry_fuel E this (S fuel) url options retryCount w
    = Run (Throw (failure_of (backend E (http_calls w) url (with_api_key this options))))
        (Fetch url (with_api_key this options)
           (backend E (http_calls w) url (with_api_key this options))
         :: map ConsoleError labels)
        (advance 1 w).
Proof.
  intros Hfail Hge. apply Nat.ltb_ge in Hge.
  assert (Hw : advance 1 w = {| http_calls := S (http_calls w);
                                uuid_calls := uuid_calls w;
                                clock_reads := clock_reads w |}).
  { unfold advance. rewrite Nat.add_1_r. reflexivity. }
  rewrite Hw.
  destruct (backend E (http_calls w) url (with_api_key this options))
    as [e|resp] eqn:Hreply; cbn in Hfail.
  - exists ["Error fetching with retry:"].
    cbn [fetchWithRetry_fuel]. unfold bind, try_catch, fetch.
    rewrite Hreply. cbn. rewrite Hge. reflexivity.
  - apply negb_true_iff in Hfail.
    exists ["Error response:"; "Error fetching with retry:"].
    cbn [fetchWithRetry_fuel]. unfold bind, try_catch, fetch.
    rewrite Hreply. cbn. rewrite Hge, andb_false_r. cbn.
    rewrite Hfail. reflexivity.
Qed.

(** An accepted reply ends the run. *)
Lemma fetchWithRetry_accepted (fuel : nat) (url : string)
    (options : RequestInit) (retryCount : nat) (w : World) (resp : Response) :
  backend E (http_calls w) url (with_api_key this options) = Responded resp ->
  ok resp = true ->
  fetchWithRetry_fuel E this (S fuel) url options retryCount w
  = Run (Ret resp) [Fetch url (with_api_key this options) (Responded resp)]
      (advance 1 w).
Proof.
  intros Hreply Hok.
  assert (Hw : advance 1 w = {| http_calls := S (http_calls w);
                                uuid_calls := uuid_calls w;
                                clock_reads := clock_reads w |}).
  { unfold advance. rewrite Nat.add_1_r. reflexivity. }
  rewrite Hw.
  cbn [fetchWithRetry_fuel]. unfold bind, try_catch, fetch. rewrite Hreply. cbn.
  assert (H404 : (http_status resp =? 404)%nat = false).
  { apply Nat.eqb_neq. intros H. unfold ok in Hok. rewrite H in Hok. discriminate. }
  rewrite H404. cbn. rewrite Hok. reflexivity.
Qed.

Lemma advance_advance (n m : nat) (w : World) :
  advance n (advance m w) = advance (m + n) w.
Proof.
  unfold advance. cbn. rewrite Nat.add_assoc. reflexivity.
Qed.

Lemma first_success_from (k : nat) :
  forall fuel url options retryCount w resp,
    (forall i, i < k ->
       failing (backend E (http_calls w + i) url (with_api_key this options)) = true) ->
    backend E (http_calls w + k) url (with_api_key this options) = Responded resp ->
    ok resp = true ->
    retryCount + k <= maxRetries this ->
    k < fuel ->
    let r := fetchWithRetry_fuel E this fuel url options retryCount w in
    out r = Ret resp /\
    http_attempts (trace r) = S k /\
    sleeps (trace r) = repeat (retryDelay this) k /\
    final r = advance (S k) w.
Proof.
  induction k as [|k IH]; intros fuel url options retryCount w resp Hfail Hreply Hok Hle Hfuel.
  - destruct fuel as [|fuel]; [lia|].
    rewrite Nat.add_0_r in Hreply.
    cbv zeta. rewrite (fetchWithRetry_accepted fuel url options retryCount w resp Hreply Hok).
    repeat split.
  - destruct fuel as [|fuel]; [lia|].
    pose proof (Hfail 0 ltac:(lia)) as H0. rewrite Nat.add_0_r in H0.
    destruct (fetchWithRetry_failed_attempt fuel url options retryCount w H0 ltac:(lia))
      as (labels & Heq).
    pose proof (logs_attempts labels) as L1. pose proof (logs_sleeps labels) as L2.
    cbv zeta. rewrite Heq.
    specialize (IH fuel url options (S retryCount) (advance 1 w) resp).
    cbv zeta in IH.
    destruct IH as (I1 & I2 & I3 & I4).
    + intros i Hi. cbn. rewrite <- Nat.add_assoc. apply Hfail. lia.
    + cbn. rewrite <- Nat.add_assoc. exact Hreply.
    + exact Hok.
    + lia.
    + lia.
    + destruct (fetchWithRetry_fuel E this fuel url options (S retryCount) (advance 1 w))
        as [o tr wf].
      cbn in *. rewrite !http_attempts_app, !sleeps_app, L1, L2, I2, I3.
      cbn. rewrite I4, advance_advance. repeat split; try assumption.
Qed.

Lemma exhaustion_from (k : nat) :
  forall fuel url options retryCount w,
    (forall i, i <= k ->
       failing (backend E (http_calls w + i) url (with_api_key this options)) = true) ->
    retryCount + k = maxRetries this ->
    k < fuel ->
    let r := fetchWithRetry_fuel E this fuel url options retryCount w in
    out r = Throw (failure_of (backend E (http_calls w + k) url
                                 (with_api_key this options))) /\
    http_attempts (trace r) = S k /\
    sleeps (trace r) = repeat (retryDelay this) k /\
    final r = advance (S k) w.
Proof.
  induction k as [|k IH]; intros fuel url options retryCount w Hfail Hle Hfuel.
  - destruct fuel as [|fuel]; [lia|].
    pose proof (Hfail 0 ltac:(lia)) as H0. rewrite Nat.add_0_r in *.
    destruct (fetchWithRetry_last_attempt fuel url options retryCount w H0 ltac:(lia))
      as (labels & Heq).
    pose proof (logs_attempts labels) as L1. pose proof (logs_sleeps labels) as L2.
    cbv zeta. rewrite Heq. cbn. rewrite L1, L2. repeat split.
  - destruct fuel as [|fuel]; [lia|].
    pose proof (Hfail 0 ltac:(lia)) as H0. rewrite Nat.add_0_r in H0.
    destruct (fetchWithRetry_failed_attempt fuel url options retryCount w H0 ltac:(lia))
      as (labels & Heq).
    pose proof (logs_attempts labels) as L1. pose proof (logs_sleeps labels) as L2.
    cbv zeta. rewrite Heq.
    specialize (IH fuel url options (S retryCount) (advance 1 w)).
    cbv zeta in IH.
    destruct IH as (I1 & I2 & I3 & I4).
    + intros i Hi. cbn. rewrite <- Nat.add_assoc. apply Hfail. lia.
    + lia.
    + lia.
    + destruct (fetchWithRetry_fuel E this fuel url options (S retryCount) (advance 1 w))
        as [o tr wf].
      cbn in *. rewrite !http_attempts_app, !sleeps_app, L1, L2, I2, I3.
      cbn. rewrite I4, advance_advance, I1.
      rewrite <- Nat.add_assoc. repeat split.
Qed.

(** X1.  [fetchWithRetry] returns the first reply that is a success: when
    the first [k] replies fail (no answer, or an answer that is not a
    success) and the next one is a success, with [k] at most [maxRetries],
    that reply is returned after exactly [k + 1] requests and [k] waits of
    [retryDelay]. *)
Theorem fetchWithRetry_returns_first_success (url : string) (options : RequestInit)
    (w : World) (k : nat) (resp : Response) :
  (forall i, i < k ->
     failing (backend E (http_calls w + i) url (with_api_key this options)) = true) ->
  backend E (http_calls w + k) url (with_api_key this options) = Responded resp ->
  ok resp = true ->
  k <= maxRetries this ->
  let r := fetchWithRetry E this url options 0 w in
  out r = Ret resp /\
  http_attempts (trace r) = S k /\
  sleeps (trace r) = repeat (retryDelay this) k /\
  final r = advance (S k) w.
Proof.
  intros Hfail Hreply Hok Hk. unfold fetchWithRetry.
  apply first_success_from; try assumption; lia.
Qed.

(** X2.  When none of the first [maxRetries + 1] replies is a success,
    [fetchWithRetry] gives up after exactly [maxRetries + 1] requests and
    [maxRetries] waits, and throws the failure of the last one: the network
    error as it came, or "HTTP error! status: " and the status. *)
Theorem fetchWithRetry_gives_up_with_last_failure (url : string)
    (options : RequestInit) (w : World) :
  (forall i, i <= maxRetries this ->
     failing (backend E (http_calls w + i) url (with_api_key this options)) = true) ->
  let r := fetchWithRetry E this url options 0 w in
  out r = Throw (failure_of (backend E (http_calls w + maxRetries this) url
                               (with_api_key this options))) /\
  http_attempts (trace r) = S (maxRetries this) /\
  sleeps (trace r) = repeat (retryDelay this) (maxRetries this) /\
  final r = advance (S (maxRetries this)) w.
Proof.
  intros Hfail. unfold fetchWithRetry.
  apply exhaustion_from; try assumption; lia.
Qed.

End RetryRuns.

Lemma advance_0 (w : World) : advance 0 w = w.
Proof.
  destruct w. unfold advance. cbn. rewrite Nat.add_0_r. reflexivity.
Qed.

Lemma advances_ret {A : Type} (a : A) (w : World) : advances w (ret a w).
Proof. unfold advances. cbn. symmetry. apply advance_0. Qed.

Lemma advances_throw {A : Type} (e : exn) (w : World) : advances w (@throw A e w).
Proof. unfold advances. cbn. symmetry. apply advance_0. Qed.

Lemma advances_hang {A : Type} (w : World) : advances w (@hang A w).
Proof. unfold advances. cbn. symmetry. apply advance_0. Qed.

Lemma advances_emit (e : effect) (w : World) :
  http_attempts [e] = 0 -> advances w (emit e w).
Proof. unfold advances. cbn [emit trace final]. intros ->. symmetry. apply advance_0. Qed.

Lemma advances_bind {A B : Type} (m : M A) (k : A -> M B) (w : World) :
  advances w (m w) ->
  (forall a w', advances w' (k a w')) ->
  advances w (bind m k w).
Proof.
  unfold advances, bind. intros Hm Hk.
  destruct (m w) as [[a|e|] tr w']; cbn in *; try assumption.
  specialize (Hk a w'). destruct (k a w') as [o' tr' w'']. cbn in *.
  rewrite Hk, Hm, advance_advance, http_attempts_app. reflexivity.
Qed.

Lemma requests_only_bind {A B : Type} (rq : string * RequestInit) (m : M A)
    (k : A -> M B) (w : World) :
  requests_only rq (m w) ->
  (forall a w', requests_only rq (k a w')) ->
  requests_only rq (bind m k w).
Proof.
  unfold requests_only, bind. intros Hm Hk.
  destruct (m w) as [[a|e|] tr w']; cbn in *; try assumption.
  specialize (Hk a w'). destruct (k a w') as [o' tr' w'']. cbn in *.
  rewrite requests_app. apply Forall_app. split; assumption.
Qed.

Lemma requests_only_repeat {A : Type} (rq : string * RequestInit) (r : run A) :
  requests_only rq r -> requests (trace r) = repeat rq (http_attempts (trace r)).
Proof.
  unfold requests_only. generalize (trace r). intros tr.
  induction tr as [|e tr IH]; [reflexivity|].
  destruct e; cbn; intros H; try (apply IH; exact H).
  inversion H as [|x l Hx Hl]; subst. cbn. f_equal. apply IH. exact Hl.
Qed.

Section ClientRequests.

Variable E : Env.
Variable this : VoltagePayments.

Lemma fetchWithRetry_fuel_shape (fuel : nat) :
  forall url options retryCount w,
    requests_only (url, with_api_key this options)
      (fetchWithRetry_fuel E this fuel url options retryCount w) /\
    advances w (fetchWithRetry_fuel E this fuel url options retryCount w).
Proof.
  induction fuel as [|fuel IH]; intros url options retryCount w.
  - split; [constructor|apply advances_hang].
  - destruct (failing (backend E (http_calls w) url (with_api_key this options)))
      eqn:Hfail.
    + destruct (Nat.lt_ge_cases retryCount (maxRetries this)) as [Hlt|Hge].
      * destruct (fetchWithRetry_failed_attempt E this fuel url options retryCount w
                    Hfail Hlt) as (labels & ->).
        destruct (IH url options (S retryCount) (advance 1 w)) as [I1 I2].
        destruct (fetchWithRetry_fuel E this fuel url options (S retryCount)
                    (advance 1 w)) as [o tr wf].
        unfold requests_only, advances in *. cbn in *.
        rewrite !requests_app, !http_attempts_app, logs_requests, logs_attempts.
        cbn. split; [constructor; [reflexivity|assumption]|].
        rewrite I2, advance_advance. reflexivity.
      * destruct (fetchWithRetry_last_attempt E this fuel url options retryCount w
                    Hfail Hge) as (labels & ->).
        unfold requests_only, advances. cbn.
        rewrite logs_requests, logs_attempts.
        split; [repeat constructor|reflexivity].
    + destruct (backend E (http_calls w) url (with_api_key this options))
        as [e|resp] eqn:Hreply; cbn in Hfail; [discriminate|].
      apply negb_false_iff in Hfail.
      rewrite (fetchWithRetry_accepted E this fuel url options retryCount w resp
                 Hreply Hfail).
      unfold requests_only, advances. cbn.
      split; [repeat constructor|reflexivity].
Qed.

Lemma getPayment_shape (paymentId : string) (w : World) :
  requests_only (fetch_request this paymentId) (getPayment E this paymentId w) /\
  advances w (getPayment E this paymentId w).
Proof.
  unfold getPayment, fetchWithRetry. split.
  - apply requests_only_bind; [constructor|]. intros _ w1.
    apply requests_only_bind.
    + apply (fetchWithRetry_fuel_shape _ (getPaymentUrl this (Some paymentId))
               {| method := "GET"; headers := []; body := None |} 0 w1).
    + intros response w2. unfold json.
      destruct (http_body response); constructor.
  - apply advances_bind; [apply advances_emit; reflexivity|]. intros _ w1.
    apply advances_bind; [apply fetchWithRetry_fuel_shape|].
    intros response w2. unfold json.
    destruct (http_body response); [apply advances_ret|apply advances_throw].
Qed.

Lemma pollLoop_shape (onStatusUpdate : option (PaymentStatus -> M unit))
    (Hobs : onStatusUpdate = None \/ onStatusUpdate = Some record_status)
    (fuel : nat) :
  forall paymentId attempts w,
    requests_only (fetch_request this paymentId)
      (pollLoop E this fuel paymentId onStatusUpdate attempts w) /\
    advances w (pollLoop E this fuel paymentId onStatusUpdate attempts w).
Proof.
  induction fuel as [|fuel IH]; intros paymentId attempts w.
  - split; [constructor|apply advances_hang].
  - cbn [pollLoop].
    destruct (attempts <? maxRetries this)%nat;
      [|split; [constructor|apply advances_throw]].
    split.
    + apply requests_only_bind; [apply getPayment_shape|]. intros p w1.
      apply requests_only_bind.
      { destruct Hobs as [-> | ->]; constructor. }
      intros _ w2. destruct (terminal (status p)); [constructor|].
      apply requests_only_bind; [constructor|]. intros _ w3. apply IH.
    + apply advances_bind; [apply getPayment_shape|]. intros p w1.
      apply advances_bind.
      { destruct Hobs as [-> | ->];
          [apply advances_ret|apply advances_emit; reflexivity]. }
      intros _ w2. destruct (terminal (status p)); [apply advances_ret|].
      apply advances_bind; [apply advances_emit; reflexivity|].
      intros _ w3. apply IH.
Qed.

Lemma waitForPaymentRequest_shape (fuel : nat) :
  forall paymentId attempts w,
    requests_only (fetch_request this paymentId)
      (waitForPaymentRequest E this fuel paymentId attempts w) /\
    advances w (waitForPaymentRequest E this fuel paymentId attempts w).
Proof.
  induction fuel as [|fuel IH]; intros paymentId attempts w.
  - split; [constructor|apply advances_hang].
  - cbn [waitForPaymentRequest].
    destruct (attempts <? maxRetries this)%nat;
      [|split; [constructor|apply advances_throw]].
    split.
    + apply requests_only_bind; [apply getPayment_shape|]. intros p w1.
      destruct (has_payment_request p); [constructor|].
      apply requests_only_bind; [constructor|]. intros _ w3. apply IH.
    + apply advances_bind; [apply getPayment_shape|]. intros p w1.
      destruct (has_payment_request p); [apply advances_ret|].
      apply advances_bind; [apply advances_emit; reflexivity|].
      intros _ w3. apply IH.
Qed.

End ClientRequests.

Section ClientShapes.

Variable E : Env.
Variable this : VoltagePayments.

(** X3.  [createPaymentRequest] draws one identifier and uses it
    throughout: every request is first the creation POST, sent again
    unchanged when it is retried, with that identifier in its body, and
    then a GET of that identifier's URL; each carries the API key.  No
    other identifier is drawn and the clock is not read. *)
Theorem createPaymentRequest_keeps_one_identifier
    (params : CreatePaymentRequestParams) (w : World) :
  let paymentId := uuidv4 E (uuid_calls w) in
  let body := createPaymentRequest_body paymentId params in
  let r := createPaymentRequest E this params w in
  body_id body = JStr paymentId /\
  (exists n m,
     requests (trace r)
     = repeat (creation_request this body) n
       ++ repeat (fetch_request this paymentId) m /\
     1 <= n <= S (maxRetries this) /\
     n + m = http_attempts (trace r)) /\
  uuid_calls (final r) = S (uuid_calls w) /\
  http_calls (final r) = http_calls w + http_attempts (trace r) /\
  clock_reads (final r) = clock_reads w.
Proof.
  intros paymentId body r. split; [reflexivity|].
  subst r. unfold createPaymentRequest, bind, emit, fresh_uuid, fetchWithRetry.
  fold paymentId. fold body.
  match goal with |- context [fetchWithRetry_fuel E this ?f ?u ?o ?c ?w'] =>
    pose proof (fetchWithRetry_fuel_shape E this f u o c w') as [S1 S2];
    pose proof (fetchWithRetry_fuel_facts E this f u o c w' ltac:(lia)) as F;
    destruct (fetchWithRetry_fuel E this f u o c w') as [o' tr wf]
  end.
  apply requests_only_repeat in S1.
  destruct F as (_ & F2 & _). rewrite Nat.sub_0_r in F2.
  unfold advances in S2. cbn [out trace final] in *.
  change (getPaymentUrl this None,
          with_api_key this
            {| method := "POST";
               headers := [("Content-Type", "application/json")];
               body := Some body |})
    with (creation_request this body) in S1.
  destruct o' as [response|e|]; cbn [after out trace final http_attempts requests app].
  2,3: (split; [exists (http_attempts tr), 0; rewrite S1, app_nil_r;
                repeat split; lia
               |rewrite S2; cbn; repeat split]).
  destruct (http_status response =? 202)%nat.
  - match goal with |- context [waitForPaymentRequest E this ?f ?i ?a ?w'] =>
      pose proof (waitForPaymentRequest_shape E this f i a w') as [W1 W2];
      destruct (waitForPaymentRequest E this f i a w') as [o2 tr2 w2]
    end.
    apply requests_only_repeat in W1. unfold advances in W2.
    cbn [after out trace final http_attempts requests app] in *.
    rewrite requests_app, http_attempts_app, S1, W1.
    split.
    + exists (http_attempts tr), (http_attempts tr2). repeat split; lia.
    + rewrite W2, S2. cbn. repeat split. lia.
  - unfold json, ret, throw.
    destruct (http_body response);
      cbn [after out trace final http_attempts requests app];
      rewrite requests_app, http_attempts_app, S1; cbn;
      (split; [exists (http_attempts tr), 0; repeat split; lia
              |rewrite S2; cbn; repeat split; lia]).
Qed.

(** X4.  [sendPayment] likewise draws one identifier: its requests are
    the creation POST with that identifier in its body, sent again
    unchanged when retried, and then GETs of that identifier's URL, each
    with the API key; the world moves by one identifier and by the HTTP
    exchanges made. *)
Theorem sendPayment_keeps_one_identifier
    (params : SendPaymentParams) (w : World) :
  let paymentId := uuidv4 E (uuid_calls w) in
  let body := sendPayment_body paymentId params in
  let r := sendPayment E this params w in
  body_id body = JStr paymentId /\
  (exists n m,
     requests (trace r)
     = repeat (creation_request this body) n
       ++ repeat (fetch_request this paymentId) m /\
     1 <= n <= S (maxRetries this) /\
     m <= S (maxRetries this) /\
     n + m = http_attempts (trace r)) /\
  uuid_calls (final r) = S (uuid_calls w) /\
  http_calls (final r) = http_calls w + http_attempts (trace r) /\
  clock_reads (final r) = clock_reads w.
Proof.
  intros paymentId body r. split; [reflexivity|].
  subst r. unfold sendPayment, bind, emit, fresh_uuid, fetchWithRetry.
  fold paymentId. fold body.
  match goal with |- context [fetchWithRetry_fuel E this ?f ?u ?o ?c ?w'] =>
    pose proof (fetchWithRetry_fuel_shape E this f u o c w') as [S1 S2];
    pose proof (fetchWithRetry_fuel_facts E this f u o c w' ltac:(lia)) as F;
    destruct (fetchWithRetry_fuel E this f u o c w') as [o' tr wf]
  end.
  apply requests_only_repeat in S1.
  destruct F as (_ & F2 & _). rewrite Nat.sub_0_r in F2.
  unfold advances in S2. cbn [out trace final] in *.
  change (getPaymentUrl this None,
          with_api_key this
            {| method := "POST";
               headers := [("Content-Type", "application/json")];
               body := Some body |})
    with (creation_request this body) in S1.
  destruct o' as [response|e|]; cbn [after out trace final http_attempts requests app].
  2,3: (split; [exists (http_attempts tr), 0; rewrite S1, app_nil_r;
                repeat split; lia
               |rewrite S2; cbn; repeat split]).
  destruct (http_status response =? 202)%nat.
  - pose proof (getPayment_shape E this paymentId wf) as [W1 W2].
    pose proof (getPayment_facts E this paymentId wf) as (_ & G2 & _).
    destruct (getPayment E this paymentId wf) as [o2 tr2 w2].
    apply requests_only_repeat in W1. unfold advances in W2.
    cbn [after out trace final http_attempts requests app] in *.
    rewrite requests_app, http_attempts_app, S1, W1.
    split.
    + exists (http_attempts tr), (http_attempts tr2). repeat split; lia.
    + rewrite W2, S2. cbn. repeat split. lia.
  - unfold json, ret, throw.
    destruct (http_body response);
      cbn [after out trace final http_attempts requests app];
      rewrite requests_app, http_attempts_app, S1; cbn;
      (split; [exists (http_attempts tr), 0; repeat split; lia
              |rewrite S2; cbn; repeat split; lia]).
Qed.

(** X5.  How [sendPayment] ends.  If the creation POST never succeeds
    the call throws without fetching.  If it is answered 202, the payment
    is fetched exactly once, whatever the status of the record, and the
    call returns a record exactly when that fetch delivered it.  Any other
    success is answered from the body of the POST, without a fetch. *)
Theorem sendPayment_fetches_once_when_accepted
    (params : SendPaymentParams) (w : World) :
  let paymentId := uuidv4 E (uuid_calls w) in
  let r := sendPayment E this params w in
  match posted (trace r) with
  | [] =>
      client_calls (trace r) = [OpSendPayment] /\ exists e, out r = Throw e
  | [response] =>
      if (http_status response =? 202)%nat then
        client_calls (trace r) = [OpSendPayment; OpGetPayment paymentId] /\
        forall p, out r = Ret p <-> fetched (trace r) = [p]
      else
        client_calls (trace r) = [OpSendPayment] /\
        fetched (trace r) = [] /\
        out r = match http_body response with
                | Some p => Ret p
                | None => Throw (JsError "Unexpected end of JSON input")
                end
  | _ => False
  end.
Proof.
  intros paymentId r. subst r.
  unfold sendPayment, bind, emit, fresh_uuid, fetchWithRetry.
  fold paymentId.
  match goal with |- context [fetchWithRetry_fuel E this ?f ?u ?o ?c ?w'] =>
    pose proof (fetchWithRetry_fuel_calls E this f u o c w') as C;
    pose proof (fetchWithRetry_fuel_facts E this f u o c w' ltac:(lia)) as F;
    destruct (fetchWithRetry_fuel E this f u o c w') as [o' tr wf]
  end.
  unfold fetch_contract in F. cbn in F. cbn [trace] in C.
  destruct F as (H1 & _ & _ & _ & H5 & H6 & H7 & _ & _).
  pose proof (fetched_view tr) as Hf.
  assert (Hv : poll_view tr = []).
  { rewrite H6. destruct o'; reflexivity. }
  rewrite Hv in Hf. cbn in Hf.
  destruct o' as [response|e|]; [| |congruence].
  2:{ cbn. rewrite H7, C. split; [reflexivity|]. exists e. reflexivity. }
  change (("POST" =? "POST")%string) with true in H7. cbv iota in H7.
  destruct (http_status response =? 202)%nat eqn:H202.
  - pose proof (getPayment_facts E this paymentId wf) as G.
    pose proof (getPayment_calls E this paymentId wf) as GC.
    destruct (getPayment E this paymentId wf) as [o2 tg wg].
    unfold getPayment_contract in G. cbn [out trace final after] in *.
    destruct G as (G1 & _ & G3 & G4 & _).
    pose proof (fetched_view tg) as Hg. rewrite G3 in Hg.
    cbn. rewrite posted_app, client_calls_app, fetched_app, H7, G4, C, GC, Hf, Hg.
    cbn. rewrite H202. split; [reflexivity|].
    intro p. destruct o2 as [q|e|]; cbn; [|split; discriminate|congruence].
    split; congruence.
  - unfold json, ret, throw.
    destruct (http_body response) as [p|] eqn:Hb; cbn;
      rewrite posted_app, client_calls_app, fetched_app, H7, C, Hf; cbn;
      rewrite H202, ?Hb; repeat split.
Qed.

(** X6.  [pollPaymentStatus] only reads: every request it sends is the
    GET of its payment's URL with the API key, nothing is posted, no
    identifier is drawn and the clock is not read. *)
Theorem pollPaymentStatus_only_reads (paymentId : string)
    (onStatusUpdate : option (PaymentStatus -> M unit))
    (Hobs : onStatusUpdate = None \/ onStatusUpdate = Some record_status)
    (w : World) :
  let r := pollPaymentStatus E this paymentId onStatusUpdate w in
  requests (trace r)
  = repeat (fetch_request this paymentId) (http_attempts (trace r)) /\
  posted (trace r) = [] /\
  final r = advance (http_attempts (trace r)) w.
Proof.
  intro r. subst r. unfold pollPaymentStatus, bind, emit.
  match goal with |- context [pollLoop E this ?f ?i ?o ?a ?w'] =>
    pose proof (pollLoop_shape E this o Hobs f i a w') as [S1 S2];
    pose proof (pollLoop_facts E this o Hobs f i a w' ltac:(lia)) as F;
    destruct (pollLoop E this f i o a w') as [o' tr wf]
  end.
  apply requests_only_repeat in S1. unfold advances in S2.
  destruct F as (_ & _ & _ & F4 & _).
  cbn [out trace final after] in *.
  cbn. rewrite S1, F4, S2. repeat split.
Qed.

End ClientShapes.

Section ClientWaits.

Variable E : Env.
Variable this : VoltagePayments.

(** One fetch by id: a wait before each attempt but the first, and at most
    one record. *)
Lemma getPayment_waits (paymentId : string) (w : World) :
  let r := getPayment E this paymentId w in
  Forall (eq (retryDelay this)) (sleeps (trace r)) /\
  S (List.length (sleeps (trace r))) = http_attempts (trace r) /\
  fetches_by_id (trace r) = 1 /\
  fetched (trace r) = match out r with Ret p => [p] | _ => [] end.
Proof.
  intro r. subst r.
  pose proof (getPayment_facts E this paymentId w) as G.
  unfold getPayment_contract in G.
  destruct G as (_ & _ & G3 & _ & _ & G6).
  rewrite fetched_view, G3.
  split; [|split; [|split; [exact G6|destruct (out (getPayment E this paymentId w)); reflexivity]]];
    clear G3 G6;
    unfold getPayment, bind, emit;
    match goal with |- context [fetchWithRetry E this ?u ?i 0 ?w'] =>
      pose proof (fetchWithRetry_facts E this u i w') as H;
      destruct (fetchWithRetry E this u i 0 w') as [o tr wf]
    end;
    unfold fetch_contract in H; cbn in H;
    destruct H as (_ & _ & H3 & H4 & _);
    (destruct o as [response|e|]; cbn; [|assumption|assumption]);
    unfold json, ret, throw; destruct (http_body response); cbn;
    rewrite ?sleeps_app, ?http_attempts_app, ?app_nil_r; cbn; (assumption || lia).
Qed.

Lemma pollLoop_waits (onStatusUpdate : option (PaymentStatus -> M unit))
    (Hobs : onStatusUpdate = None \/ onStatusUpdate = Some record_status)
    (fuel : nat) :
  forall paymentId attempts w,
    waits_accounted this pending 0
      (pollLoop E this fuel paymentId onStatusUpdate attempts w).
Proof.
  induction fuel as [|fuel IH]; intros paymentId attempts w.
  - split; [constructor|reflexivity].
  - cbn [pollLoop].
    destruct (attempts <? maxRetries this)%nat; [|split; [constructor|reflexivity]].
    unfold bind at 1.
    pose proof (getPayment_waits paymentId w) as G. cbv zeta in G.
    destruct (getPayment E this paymentId w) as [o tg wg].
    cbn [out trace final] in G. destruct G as (G1 & G2 & G3 & G4).
    destruct o as [p|e|]; cbn [after];
      [|split; cbn [trace]; [exact G1|rewrite G3, G4; cbn; lia]
       |split; cbn [trace]; [exact G1|rewrite G3, G4; cbn; lia]].
    assert (Hn : forall w1,
      exists n w2,
        (match onStatusUpdate with
         | Some callback => callback (status p)
         | None => ret tt
         end) w1 = Run (Ret tt) n w2 /\
        sleeps n = [] /\ fetches_by_id n = 0 /\ http_attempts n = 0 /\
        fetched n = []).
    { intro w1. destruct Hobs as [-> | ->]; eexists; eexists;
        (split; [reflexivity|repeat split]). }
    unfold bind at 1. destruct (Hn wg) as (n & w2 & -> & N1 & N2 & N3 & N4).
    cbn [after].
    destruct (terminal (status p)) eqn:Ht.
    + unfold ret. cbn [after]. unfold waits_accounted. cbn [trace].
      rewrite !sleeps_app, !fetches_by_id_app, !http_attempts_app, !fetched_app,
        filter_app, N1, N2, N3, N4, G3, G4, !app_nil_r.
      cbn. unfold pending. rewrite Ht. cbn.
      split; [exact G1|lia].
    + unfold bind at 1, sleep, emit. cbn [after].
      specialize (IH paymentId (S attempts) w2).
      destruct (pollLoop E this fuel paymentId onStatusUpdate (S attempts) w2)
        as [o' tr' w'].
      unfold waits_accounted in *. cbn [trace after] in *.
      destruct IH as (I1 & I2).
      rewrite !sleeps_app, !fetches_by_id_app, !http_attempts_app, !fetched_app,
        !filter_app, N1, N2, N3, N4, G3, G4.
      cbn. unfold pending at 1. rewrite Ht. cbn.
      split; [apply Forall_app; split; [exact G1|constructor; [reflexivity|exact I1]]|].
      rewrite List.length_app. cbn. lia.
Qed.

Lemma waitForPaymentRequest_waits (fuel : nat) :
  forall paymentId attempts w,
    waits_accounted this without_invoice 0
      (waitForPaymentRequest E this fuel paymentId attempts w).
Proof.
  induction fuel as [|fuel IH]; intros paymentId attempts w.
  - split; [constructor|reflexivity].
  - cbn [waitForPaymentRequest].
    destruct (attempts <? maxRetries this)%nat; [|split; [constructor|reflexivity]].
    unfold bind at 1.
    pose proof (getPayment_waits paymentId w) as G. cbv zeta in G.
    destruct (getPayment E this paymentId w) as [o tg wg].
    cbn [out trace final] in G. destruct G as (G1 & G2 & G3 & G4).
    destruct o as [p|e|]; cbn [after];
      [|split; cbn [trace]; [exact G1|rewrite G3, G4; cbn; lia]
       |split; cbn [trace]; [exact G1|rewrite G3, G4; cbn; lia]].
    destruct (has_payment_request p) eqn:Ht.
    + unfold ret. cbn [after]. unfold waits_accounted. cbn [trace].
      rewrite !app_nil_r, G3, G4.
      cbn. unfold without_invoice. rewrite Ht. cbn.
      split; [exact G1|lia].
    + unfold bind at 1, sleep, emit. cbn [after].
      specialize (IH paymentId (S attempts) wg).
      destruct (waitForPaymentRequest E this fuel paymentId (S attempts) wg)
        as [o' tr' w'].
      unfold waits_accounted in *. cbn [trace after] in *.
      destruct IH as (I1 & I2).
      rewrite !sleeps_app, !fetches_by_id_app, !http_attempts_app, !fetched_app,
        !filter_app, G3, G4.
      cbn. unfold without_invoice at 1. rewrite Ht. cbn.
      split; [apply Forall_app; split; [exact G1|constructor; [reflexivity|exact I1]]|].
      rewrite List.length_app. cbn. lia.
Qed.

(** X7.  The waits of [pollPaymentStatus] are all [retryDelay] long, and
    there is exactly one for each HTTP exchange that had to be repeated and
    one for each fetched record whose status was not terminal; a call that
    returns has therefore waited once less than it made HTTP exchanges. *)
Theorem pollPaymentStatus_waits (paymentId : string)
    (onStatusUpdate : option (PaymentStatus -> M unit))
    (Hobs : onStatusUpdate = None \/ onStatusUpdate = Some record_status)
    (w : World) :
  let r := pollPaymentStatus E this paymentId onStatusUpdate w in
  Forall (eq (retryDelay this)) (sleeps (trace r)) /\
  List.length (sleeps (trace r)) + fetches_by_id (trace r)
  = http_attempts (trace r) + List.length (filter pending (fetched (trace r))) /\
  (forall p, out r = Ret p ->
     S (List.length (sleeps (trace r))) = http_attempts (trace r)).
Proof.
  intro r. subst r. unfold pollPaymentStatus, bind, emit.
  match goal with |- context [pollLoop E this ?f ?i ?o ?a ?w'] =>
    pose proof (pollLoop_waits o Hobs f i a w') as [S1 S2];
    pose proof (pollLoop_facts E this o Hobs f i a w' ltac:(lia)) as F;
    destruct (pollLoop E this f i o a w') as [o' tr wf]
  end.
  destruct F as (_ & _ & _ & _ & _ & F6).
  cbn [out trace final after] in *. cbn.
  split; [exact S1|]. split; [lia|].
  intros p Hp. inversion Hp; subst o'.
  destruct F6 as (pre & Hf & Hpre & Ht & Hn & _).
  rewrite Hf, filter_app, Hn in S2. cbn in S2.
  unfold pending at 2 in S2. rewrite Ht in S2. cbn in S2.
  rewrite app_nil_r in S2.
  assert (Hall : filter pending pre = pre).
  { apply forallb_filter_id. exact Hpre. }
  rewrite Hall in S2. lia.
Qed.

(** X8.  The waits of [createPaymentRequest] are all [retryDelay] long:
    one for each HTTP exchange that had to be repeated, the creation call
    included, and one for each fetched record that had no invoice text
    yet. *)
Theorem createPaymentRequest_waits (params : CreatePaymentRequestParams)
    (w : World) :
  let r := createPaymentRequest E this params w in
  Forall (eq (retryDelay this)) (sleeps (trace r)) /\
  S (List.length (sleeps (trace r)) + fetches_by_id (trace r))
  = http_attempts (trace r)
    + List.length (filter without_invoice (fetched (trace r))).
Proof.
  intro r. subst r. unfold createPaymentRequest, bind, emit, fresh_uuid.
  match goal with |- context [fetchWithRetry E this ?u ?i 0 ?w'] =>
    pose proof (fetchWithRetry_facts E this u i w') as H;
    destruct (fetchWithRetry E this u i 0 w') as [o tr wf]
  end.
  unfold fetch_contract in H. cbn in H.
  destruct H as (H1 & _ & H3 & H4 & _ & H6 & _ & _ & H9).
  pose proof (fetched_view tr) as Hf.
  assert (Hv : poll_view tr = []).
  { rewrite H6. destruct o; reflexivity. }
  rewrite Hv in Hf. cbn in Hf.
  destruct o as [response|e|]; [| |congruence].
  2:{ cbn. rewrite H9, Hf. cbn. split; [exact H4|lia]. }
  destruct (http_status response =? 202)%nat.
  - match goal with |- context [waitForPaymentRequest E this ?f ?i ?a ?w'] =>
      pose proof (waitForPaymentRequest_waits f i a w') as [W1 W2];
      destruct (waitForPaymentRequest E this f i a w') as [o' tr' wq]
    end.
    cbn [out trace final after] in *. cbn.
    rewrite sleeps_app, fetches_by_id_app, http_attempts_app, fetched_app,
      H9, Hf, List.length_app.
    cbn. split; [apply Forall_app; split; assumption|lia].
  - unfold json, ret, throw.
    destruct (http_body response); cbn;
      rewrite sleeps_app, fetches_by_id_app, http_attempts_app, fetched_app,
        H9, Hf, !app_nil_r; cbn; (split; [exact H4|lia]).
Qed.

End ClientWaits.

Lemma trace_after {A : Type} (tr : list effect) (r : run A) :
  trace (after tr r) = tr ++ trace r.
Proof. destruct r; reflexivity. Qed.

Lemma out_after {A : Type} (tr : list effect) (r : run A) :
  out (after tr r) = out r.
Proof. destruct r; reflexivity. Qed.

Lemma final_after {A : Type} (tr : list effect) (r : run A) :
  final (after tr r) = final r.
Proof. destruct r; reflexivity. Qed.

Lemma without_notices_seen (seen : list PaymentStatus) :
  without_notices (map StatusUpdate seen) = [].
Proof. induction seen; [reflexivity|assumption]. Qed.

Lemma same_but_notices_after {A : Type} (tr tr' : list effect) (quiet loud : run A) :
  tr = without_notices tr' ->
  same_but_notices quiet loud ->
  same_but_notices (after tr quiet) (after tr' loud).
Proof.
  intros Htr (H1 & H2 & H3). unfold same_but_notices.
  rewrite !out_after, !final_after, !trace_after, without_notices_app, H3, Htr.
  repeat split; assumption.
Qed.

Lemma same_but_notices_bind {A B : Type} (m : M A) (k k' : A -> M B) (w : World) :
  observed (trace (m w)) = [] ->
  (forall a w', same_but_notices (k a w') (k' a w')) ->
  same_but_notices (bind m k w) (bind m k' w).
Proof.
  intros Hm Hk. unfold bind.
  destruct (m w) as [[a|e|] tr w']; cbn [trace] in Hm.
  - apply same_but_notices_after; [|apply Hk].
    symmetry. apply without_notices_quiet. exact Hm.
  - unfold same_but_notices. cbn. rewrite without_notices_quiet by exact Hm.
    repeat split.
  - unfold same_but_notices. cbn. rewrite without_notices_quiet by exact Hm.
    repeat split.
Qed.

Section Observer.

Variable E : Env.
Variable this : VoltagePayments.

Lemma getPayment_quiet (paymentId : string) (w : World) :
  observed (trace (getPayment E this paymentId w)) = [].
Proof.
  pose proof (getPayment_facts E this paymentId w) as (_ & _ & G3 & _).
  rewrite observed_view, G3.
  destruct (out (getPayment E this paymentId w)); reflexivity.
Qed.

Lemma pollLoop_observer (callback : PaymentStatus -> M unit)
    (Hcb : passive callback) (fuel : nat) :
  forall paymentId attempts w,
    same_but_notices
      (pollLoop E this fuel paymentId None attempts w)
      (pollLoop E this fuel paymentId (Some callback) attempts w).
Proof.
  induction fuel as [|fuel IH]; intros paymentId attempts w.
  - repeat split.
  - cbn [pollLoop].
    destruct (attempts <? maxRetries this)%nat; [|repeat split].
    apply same_but_notices_bind; [apply getPayment_quiet|].
    intros p w1. unfold bind at 1 3.
    destruct (Hcb (status p) w1) as (seen & ->). unfold ret at 1.
    apply same_but_notices_after.
    { symmetry. apply without_notices_seen. }
    destruct (terminal (status p)); [repeat split|].
    apply same_but_notices_bind; [reflexivity|]. intros _ w2. apply IH.
Qed.

(** X9.  The observer of [pollPaymentStatus] only watches: with an
    observer that returns and does nothing else, the call makes the same
    requests and waits, ends in the same way and leaves the same world as
    with no observer at all; the two runs differ by the observer calls
    alone. *)
Theorem pollPaymentStatus_observer_only_watches (paymentId : string)
    (callback : PaymentStatus -> M unit) (Hcb : passive callback) (w : World) :
  let quiet := pollPaymentStatus E this paymentId None w in
  let loud := pollPaymentStatus E this paymentId (Some callback) w in
  out quiet = out loud /\
  final quiet = final loud /\
  trace quiet = without_notices (trace loud).
Proof.
  intros quiet loud. subst quiet loud. unfold pollPaymentStatus.
  apply (same_but_notices_bind (emit (Call (OpPollPaymentStatus paymentId)))).
  - reflexivity.
  - intros _ w'. apply pollLoop_observer. exact Hcb.
Qed.

End Observer.

Lemma trace_bind_prefix {A B : Type} (m : M A) (k : A -> M B) (w : World) :
  exists rest, trace (bind m k w) = trace (m w) ++ rest.
Proof.
  unfold bind. destruct (m w) as [[a|e|] tr w']; cbn.
  - exists (trace (k a w')). apply trace_after.
  - exists []. symmetry. apply app_nil_r.
  - exists []. symmetry. apply app_nil_r.
Qed.

Section Constructor.

Variable E : Env.

Lemma fetchWithRetry_starts (this : Configured.VoltagePayments) (fuel : nat)
    (url : string) (options : RequestInit) (retryCount : nat) (w : World) :
  exists reply rest,
    trace (Configured.fetchWithRetry E this (S fuel) url options retryCount w)
    = Fetch url (Configured.with_api_key this options) reply :: rest.
Proof.
  cbn [Configured.fetchWithRetry].
  unfold bind at 1, try_catch, bind at 1, fetch.
  destruct (backend E (http_calls w) url (Configured.with_api_key this options))
    as [e|resp] eqn:Hreply; cbn.
  - destruct (Configured.below retryCount (Configured.maxRetries this)); cbn.
    + rewrite trace_after. eexists. eexists. reflexivity.
    + eexists. eexists. reflexivity.
  - destruct ((http_status resp =? 404)%nat
              && Configured.below retryCount (Configured.maxRetries this)); cbn.
    + rewrite trace_after. eexists. eexists. reflexivity.
    + destruct (ok resp); cbn; [eexists; eexists; reflexivity|].
      destruct (Configured.below retryCount (Configured.maxRetries this)); cbn.
      * rewrite trace_after. eexists. eexists. reflexivity.
      * eexists. eexists. reflexivity.
Qed.

Lemma getPayment_starts (this : Configured.VoltagePayments) (fuel : nat)
    (paymentId : string) (w : World) :
  exists reply rest,
    trace (Configured.getPayment E this (S fuel) paymentId w)
    = Call (OpGetPayment paymentId)
      :: Fetch (Configured.getPaymentUrl this (Some paymentId))
           (Configured.with_api_key this
              {| method := "GET"; headers := []; body := None |}) reply
      :: rest.
Proof.
  unfold Configured.getPayment. unfold bind at 1, emit. rewrite trace_after.
  match goal with |- context [bind ?m ?k ?w'] =>
    destruct (trace_bind_prefix m k w') as (rest & ->)
  end.
  destruct (fetchWithRetry_starts this fuel
              (Configured.getPaymentUrl this (Some paymentId))
              {| method := "GET"; headers := []; body := None |} 0 w)
    as (reply & rest' & ->).
  exists reply, (rest' ++ rest). reflexivity.
Qed.

(** X10.  The constructor never leaves a falsy setting: a missing, zero
    or NaN [maxRetries] or [retryDelay] becomes 30 or 2000, and every
    other number is kept as it is given, negative ones and [Infinity]
    included.  A client whose [maxRetries] is above zero fetches the
    payment at least once when it polls; one whose [maxRetries] is not,
    which only a negative setting gives, times out at once, without any
    request. *)
Theorem constructor_keeps_every_truthy_setting (config : Configured.VoltageConfig)
    (paymentId : string) (onStatusUpdate : option (PaymentStatus -> M unit))
    (fuel : nat) (w : World) :
  let client := Configured.new_VoltagePayments config in
  let r := Configured.pollPaymentStatus E client (S fuel) paymentId
             onStatusUpdate w in
  (Configured.falsy (Configured.maxRetries client) = false /\
   Configured.falsy (Configured.retryDelay client) = false) /\
  (forall x,
     Configured.cfg_maxRetries config = Some x ->
     Configured.maxRetries client
     = if Configured.falsy x then Configured.of_nat 30 else x) /\
  (forall x,
     Configured.cfg_retryDelay config = Some x ->
     Configured.retryDelay client
     = if Configured.falsy x then Configured.of_nat 2000 else x) /\
  (Configured.cfg_maxRetries config = None ->
   Configured.maxRetries client = Configured.of_nat 30) /\
  (Configured.cfg_retryDelay config = None ->
   Configured.retryDelay client = Configured.of_nat 2000) /\
  (Configured.below 0 (Configured.maxRetries client) = true ->
   1 <= fetches_by_id (trace r) /\ 1 <= http_attempts (trace r)) /\
  (Configured.below 0 (Configured.maxRetries client) = false ->
   r = Run (Throw (polling_gave_up E client))
           [Call (OpPollPaymentStatus paymentId)] w).
Proof.
  intros client r.
  split; [|split; [|split; [|split; [|split; [|split]]]]].
  - subst client.
    unfold Configured.new_VoltagePayments, Configured.or_default.
    cbn [Configured.maxRetries Configured.retryDelay].
    split.
    + destruct (Configured.cfg_maxRetries config) as [x|]; [|reflexivity].
      destruct (Configured.falsy x) eqn:Hx; [reflexivity|exact Hx].
    + destruct (Configured.cfg_retryDelay config) as [x|]; [|reflexivity].
      destruct (Configured.falsy x) eqn:Hx; [reflexivity|exact Hx].
  - intros x Hx. subst client. cbn. rewrite Hx. reflexivity.
  - intros x Hx. subst client. cbn. rewrite Hx. reflexivity.
  - intros Hx. subst client. cbn. rewrite Hx. reflexivity.
  - intros Hx. subst client. cbn. rewrite Hx. reflexivity.
  - intros Hpos.
    assert (H : exists reply rest,
              trace r = Call (OpPollPaymentStatus paymentId)
                        :: Call (OpGetPayment paymentId)
                        :: Fetch (Configured.getPaymentUrl client (Some paymentId))
                             (Configured.with_api_key client
                                {| method := "GET"; headers := []; body := None |})
                             reply
                        :: rest).
    { subst r. unfold Configured.pollPaymentStatus. unfold bind at 1, emit.
      rewrite trace_after. cbn [Configured.pollLoop]. rewrite Hpos.
      match goal with |- context [bind ?m ?k ?w'] =>
        destruct (trace_bind_prefix m k w') as (rest & ->)
      end.
      destruct (getPayment_starts client fuel paymentId w)
        as (reply & rest' & ->).
      exists reply, (rest' ++ rest). reflexivity. }
    destruct H as (reply & rest & ->). cbn. lia.
  - intros Hneg. subst r.
    unfold Configured.pollPaymentStatus. unfold bind at 1, emit.
    cbn [Configured.pollLoop]. rewrite Hneg. reflexivity.
Qed.

End Constructor.

Lemma js_get_property (v : value) (key : string) (w : World) :
  nullish v = false -> js_get v key w = Run (Ret (property v key)) [] w.
Proof. destruct v; cbn; intros H; try discriminate; reflexivity. Qed.

Lemma js_get_missing (v : value) (key : string) (w : World) :
  nullish v = true ->
  js_get v key w = Run (Throw (JsError (missing_property_message v key))) [] w.
Proof. destruct v; cbn; intros H; try discriminate; reflexivity. Qed.

Lemma is_string_true (v : value) (literal : string) :
  is_string v literal = true -> v = JStr literal.
Proof.
  destruct v; cbn; try discriminate. intro H.
  apply String.eqb_eq in H. congruence.
Qed.

Lemma after_nil {A : Type} (r : run A) : after [] r = r.
Proof. destruct r; reflexivity. Qed.

Section GatewayRuns.

Variable E : Env.
Variable this : NWCService.

(** The guarded part of [handleRequest], step by step: the handler runs,
    then one response reports how it ended. *)
Lemma dispatch_reports (event : NostrEvent) (method : value) (d : M value)
    (w : World) :
  out (d w) <> Hang ->
  exists e w',
    try_catch
      (result <- d ;;
       sendResponse E (connected this) event method result)
      (fun error =>
         match error with
         | JsError message => sendError E (connected this) event INTERNAL message
         | NonError _ =>
             sendError E (connected this) event INTERNAL "Unknown error occurred"
         end) w
    = Run (Ret tt) (trace (d w) ++ [Publish e]) w' /\
    answers E this event (response_for method (out (d w))) e.
Proof.
  intros H. unfold try_catch, bind.
  destruct (d w) as [[v|x|] tr w1]; cbn in H; [| |congruence].
  - destruct (sendResponse_run E this event method v w1) as (e & w2 & -> & Ha).
    exists e, w2. split; [reflexivity|exact Ha].
  - destruct x as [msg|x].
    + destruct (sendError_run E this event INTERNAL msg w1) as (e & w2 & -> & Ha).
      exists e, w2. split; [reflexivity|exact Ha].
    + destruct (sendError_run E this event INTERNAL "Unknown error occurred" w1)
        as (e & w2 & -> & Ha).
      exists e, w2. split; [reflexivity|exact Ha].
Qed.



(** [handleRequest] for a request whose method is [literal]: past the
    two checks. *)
Lemma handleRequest_enters (event : NostrEvent) (request : value) (w : World) :
  nullish request = false ->
  includes SUPPORTED_METHODS (method_of request) = true ->
  handleRequest E (connected this) event request w
  = try_catch
      (result <-
         (if is_string (method_of request) "pay_invoice" then
            params <- js_get request "params" ;;
            handlePayInvoice E (connected this) params
          else if is_string (method_of request) "make_invoice" then
            params <- js_get request "params" ;;
            handleMakeInvoice E (connected this) params
          else if is_string (method_of request) "get_balance" then
            params <- js_get request "params" ;;
            handleGetBalance params
          else if is_string (method_of request) "get_info" then
            params <- js_get request "params" ;;
            handleGetInfo (connected this) params
          else
            throw (JsError ("Unhandled method: "
                            ++ js_String E (method_of request))%string)) ;;
       sendResponse E (connected this) event (method_of request) result)
      (fun error =>
         match error with
         | JsError message => sendError E (connected this) event INTERNAL message
         | NonError _ =>
             sendError E (connected this) event INTERNAL "Unknown error occurred"
         end) w.
Proof.
  intros Hn Hinc. unfold handleRequest. unfold bind at 1.
  rewrite (read_method request w Hn). cbn [after]. rewrite Hinc. cbn [negb].
  apply after_nil.
Qed.

End GatewayRuns.

Section GatewayEdges.

Variable E : Env.
Variable this : NWCService.

Lemma onevent_unreadable (event : NostrEvent) (text : string) (w : World) :
  nip04_decrypt E (secret (config this)) (ev_pubkey event) (ev_content event)
    = Some text ->
  JSON_parse E text = None \/
  (exists request, JSON_parse E text = Some request /\ nullish request = true) ->
  exists e w',
    onevent E (connected this) event w
      = Run (Ret tt) [ConsoleError "Error handling request:"; Publish e] w' /\
    answers E this event
      (error_envelope INTERNAL "Internal error processing request") e.
Proof.
  intros Hdec Hbad.
  unfold onevent, try_catch, bind at 1, decrypt. cbn. rewrite Hdec.
  cbn. unfold bind at 1, parse.
  destruct Hbad as [Hparse | (request & Hparse & Hn)]; rewrite Hparse; cbn.
  - unfold bind, console_error, emit. cbn.
    destruct (sendError_run E this event INTERNAL
                "Internal error processing request" w) as (e & w' & -> & Ha).
    exists e, w'. split; [reflexivity|exact Ha].
  - unfold handleRequest, bind at 1.
    destruct (read_method_fails request w Hn) as (x & ->). cbn.
    unfold bind, console_error, emit. cbn.
    destruct (sendError_run E this event INTERNAL
                "Internal error processing request" w) as (e & w' & -> & Ha).
    exists e, w'. split; [reflexivity|exact Ha].
Qed.

(** X11.  A payload that decrypts but is not JSON, or is the JSON value
    null, is treated like one that cannot be decrypted: the failure is
    logged and the sender gets one INTERNAL error response with the
    message "Internal error processing request"; nothing else happens. *)
Theorem unreadable_payload_gets_internal_error (event : NostrEvent)
    (text : string) (w : World) :
  nip04_decrypt E (secret (config this)) (ev_pubkey event) (ev_content event)
    = Some text ->
  JSON_parse E text = None \/
  (exists request, JSON_parse E text = Some request /\ nullish request = true) ->
  exists e w',
    onevent E (connected this) event w
      = Run (Ret tt) [ConsoleError "Error handling request:"; Publish e] w' /\
    answers E this event
      {| result_type := JStr "error";
         error := Some {| code := INTERNAL;
                          message := "Internal error processing request" |};
         result := None |} e.
Proof.
  intros Hdec Hbad. exact (onevent_unreadable event text w Hdec Hbad).
Qed.




Lemma supported_by_case (m : value) (literal : string) :
  In literal SUPPORTED_METHODS ->
  is_string m literal = true ->
  includes SUPPORTED_METHODS m = true.
Proof.
  intros Hin Hm. apply is_string_true in Hm. subst m.
  unfold includes. apply existsb_exists. exists literal.
  split; [exact Hin|apply String.eqb_refl].
Qed.

(** X13.  [get_balance] and [get_info] are answered from the gateway
    itself: the response is the only effect, so no call reaches the
    payment client or the backend, whatever [params] the request has.
    The balance reported is always 0; the information holds the
    configured public key and the lists of supported methods and
    notifications. *)
Theorem wallet_queries_need_no_backend (event : NostrEvent) (request : value)
    (w : World) :
  nullish request = false ->
  (is_string (method_of request) "get_balance" = true ->
   exists e w',
     handleRequest E (connected this) event request w
       = Run (Ret tt) [Publish e] w' /\
     answers E this event
       (result_envelope (JStr "get_balance") (JObj [("balance", JNum 0)])) e) /\
  (is_string (method_of request) "get_info" = true ->
   exists e w',
     handleRequest E (connected this) event request w
       = Run (Ret tt) [Publish e] w' /\
     answers E this event
       (result_envelope (JStr "get_info")
          (JObj [("alias", JStr "Voltage Pay NWC");
                 ("color", JStr "#ff9500");
                 ("pubkey", JStr (pubkey (config this)));
                 ("network", JStr "mainnet");
                 ("methods", JArr (map JStr SUPPORTED_METHODS));
                 ("notifications", JArr (map JStr SUPPORTED_NOTIFICATIONS))])) e).
Proof.
  intros Hn. split; intros Hm.
  - rewrite (handleRequest_enters E this event request w Hn)
      by (apply (supported_by_case _ "get_balance"); [cbn; tauto|exact Hm]).
    apply is_string_true in Hm. rewrite Hm.
    change (is_string (JStr "get_balance") "pay_invoice") with false.
    change (is_string (JStr "get_balance") "make_invoice") with false.
    change (is_string (JStr "get_balance") "get_balance") with true.
    cbv iota.
    match goal with |- context [try_catch (bind ?d _) _ w] =>
      assert (Hd : d w = Run (Ret (JObj [("balance", JNum 0)])) [] w)
        by (unfold bind; rewrite (js_get_property request "params" w Hn);
            reflexivity);
      destruct (dispatch_reports E this event (JStr "get_balance") d w) as (e & w' & -> & Ha);
      [rewrite Hd; discriminate|]
    end.
    rewrite Hd in *. exists e, w'. split; [reflexivity|exact Ha].
  - rewrite (handleRequest_enters E this event request w Hn)
      by (apply (supported_by_case _ "get_info"); [cbn; tauto|exact Hm]).
    apply is_string_true in Hm. rewrite Hm.
    change (is_string (JStr "get_info") "pay_invoice") with false.
    change (is_string (JStr "get_info") "make_invoice") with false.
    change (is_string (JStr "get_info") "get_balance") with false.
    change (is_string (JStr "get_info") "get_info") with true.
    cbv iota.
    match goal with |- context [try_catch (bind ?d _) _ w] =>
      assert (Hd : d w = handleGetInfo (connected this) (params_of request) w)
        by (unfold bind; rewrite (js_get_property request "params" w Hn);
            apply after_nil);
      destruct (dispatch_reports E this event (JStr "get_info") d w) as (e & w' & -> & Ha);
      [rewrite Hd; discriminate|]
    end.
    rewrite Hd in *. exists e, w'. split; [reflexivity|exact Ha].
Qed.

End GatewayEdges.

Section GatewayPayments.

Variable E : Env.
Variable this : NWCService.


(** X14.  A [pay_invoice] or [make_invoice] request without [params]
    (missing or null) never reaches the payment client: reading the first
    parameter fails, and the sender gets one INTERNAL error response that
    carries the message of that failure; the response is the only
    effect. *)
Theorem payment_request_without_params (event : NostrEvent) (request : value)
    (w : World) :
  nullish request = false ->
  nullish (params_of request) = true ->
  (is_string (method_of request) "pay_invoice" = true ->
   exists e w',
     handleRequest E (connected this) event request w
       = Run (Ret tt) [Publish e] w' /\
     answers E this event
       (error_envelope INTERNAL
          (missing_property_message (params_of request) "invoice")) e) /\
  (is_string (method_of request) "make_invoice" = true ->
   exists e w',
     handleRequest E (connected this) event request w
       = Run (Ret tt) [Publish e] w' /\
     answers E this event
       (error_envelope INTERNAL
          (missing_property_message (params_of request) "amount")) e).
Proof.
  intros Hn Hp. split; intros Hm.
  - rewrite (handleRequest_enters E this event request w Hn)
      by (apply (supported_by_case _ "pay_invoice"); [cbn; tauto|exact Hm]).
    rewrite Hm.
    match goal with |- context [try_catch (bind ?d _) _ w] =>
      assert (Hd : d w = Run (Throw (JsError (missing_property_message
                                               (params_of request) "invoice")))
                           [] w)
        by (unfold bind at 1; rewrite (js_get_property request "params" w Hn);
            rewrite after_nil; unfold handlePayInvoice, bind at 1;
            fold (params_of request);
            rewrite (js_get_missing (params_of request) "invoice" w Hp);
            reflexivity);
      destruct (dispatch_reports E this event (method_of request) d w)
        as (e & w' & -> & Ha);
      [rewrite Hd; discriminate|]
    end.
    rewrite Hd in *. exists e, w'. split; [reflexivity|exact Ha].
  - rewrite (handleRequest_enters E this event request w Hn)
      by (apply (supported_by_case _ "make_invoice"); [cbn; tauto|exact Hm]).
    rewrite Hm.
    apply is_string_true in Hm.
    assert (Hpay : is_string (method_of request) "pay_invoice" = false)
      by (rewrite Hm; reflexivity).
    rewrite Hpay.
    match goal with |- context [try_catch (bind ?d _) _ w] =>
      assert (Hd : d w = Run (Throw (JsError (missing_property_message
                                               (params_of request) "amount")))
                           [] w)
        by (unfold bind at 1; rewrite (js_get_property request "params" w Hn);
            rewrite after_nil; unfold handleMakeInvoice, bind at 1;
            fold (params_of request);
            rewrite (js_get_missing (params_of request) "amount" w Hp);
            reflexivity);
      destruct (dispatch_reports E this event (method_of request) d w)
        as (e & w' & -> & Ha);
      [rewrite Hd; discriminate|]
    end.
    rewrite Hd in *. exists e, w'. split; [reflexivity|exact Ha].
Qed.



(** X17.  [init] announces the service once: a single event of the
    information kind goes to the relay, listing the four supported
    methods and, in its [notifications] tag, the two supported
    notifications, signed with the service's key and dated by one reading
    of the clock in seconds; the service is connected afterwards. *)
Theorem init_announces_supported_methods (v : VoltagePayments) (c : NWCConfig)
    (w : World) :
  exists e,
    init E (new_NWCService v c) w
      = Run (Ret (connected (new_NWCService v c))) [Publish e] (tick w) /\
    ev_kind e = NWCEventKind_number INFO /\
    ev_content e = "pay_invoice make_invoice get_balance get_info" /\
    ev_tags e = [["notifications"; "payment_received payment_sent"]] /\
    ev_created_at e = (Date_now E (clock_reads w) / 1000)%Z /\
    ev_pubkey e = getPublicKey E (secret c).
Proof.
  eexists. split; [reflexivity|]. cbn. repeat split.
Qed.

(** X18.  [sendNotification] on a connected service publishes exactly one
    event of the notification kind, tagged with the client's key and
    carrying the sealed notification; on a service that was never
    connected it publishes nothing and still returns normally. *)
Theorem sendNotification_needs_a_relay (clientPubkey type : string)
    (data : value) (w : World) :
  (exists e,
     sendNotification E (connected this) clientPubkey type data w
       = Run (Ret tt) [Publish e] (tick w) /\
     notifies E this clientPubkey
       {| notification_type := type; notification := data |} e) /\
  (relay this = None ->
   sendNotification E this clientPubkey type data w = Run (Ret tt) [] (tick w)).
Proof.
  split.
  - eexists. split; [reflexivity|]. unfold notifies. cbn. repeat split.
  - intro Hr. unfold sendNotification, bind, createSignedEvent, now, ret, publish.
    cbn. rewrite Hr. reflexivity.
Qed.

End GatewayPayments.

Section CommandLine.

Variable E : Env.
Variable voltage : VoltagePayments.
Variable walletId : string.

(** What both flows do with the record of the first call: poll, then
    report. *)
Lemma poll_then_report (m : M PaymentResponse) (w : World) :
  out (m w) <> Hang ->
  reported
    (try_catch
       (payment <- m ;;
        result <- pollPaymentStatus E voltage (id payment) (Some record_status) ;;
        ret (match status result with
             | completed => true
             | _ => false
             end))
       (fun error => console_error "Error:" ;; ret false) w).
Proof.
  intro Hm. unfold try_catch. unfold bind at 1.
  destruct (m w) as [[p0|e|] ts w1]; cbn in Hm; [| |congruence].
  - cbn [after]. unfold bind at 1.
    pose proof (pollPaymentStatus_facts E voltage (id p0) (Some record_status)
                  (or_intror eq_refl) w1) as H.
    destruct (pollPaymentStatus E voltage (id p0) (Some record_status) w1)
      as [[res|e2|] tp w2]; unfold pollLoop_contract in H;
      cbn [out trace final] in H;
      destruct H as (_ & _ & _ & _ & _ & H6); [| |contradiction].
    + destruct H6 as (pre & Hf & _ & Ht & _).
      unfold ret, reported. cbn. rewrite app_nil_r, fetched_app, Hf.
      destruct (status res) eqn:Hs; try discriminate Ht.
      * exists (fetched ts ++ pre), res. rewrite List.app_assoc. split; [reflexivity|exact Hs].
      * left. exists (fetched ts ++ pre), res. rewrite List.app_assoc.
        split; [reflexivity|exact Hs].
    + unfold bind, console_error, emit, ret, reported. cbn.
      right. exists (ts ++ tp). reflexivity.
  - unfold bind, console_error, emit, ret, reported. cbn.
    right. exists ts. reflexivity.
Qed.

(** X19.  The send flow of the command line never fails: whatever the
    backend does, it ends by reporting.  It reports success only when
    the last record it fetched is completed; otherwise that record is
    failed, or an exception was caught and logged as the last effect. *)
Theorem cli_send_reports_the_terminal_status (bolt11 : string)
    (amountMsats : value) (w : World) :
  let r := CLI.sendPayment E voltage walletId bolt11 amountMsats w in
  match out r with
  | Ret true =>
      exists pre p, fetched (trace r) = pre ++ [p] /\ status p = completed
  | Ret false =>
      (exists pre p, fetched (trace r) = pre ++ [p] /\ status p = failed) \/
      (exists tr, trace r = tr ++ [ConsoleError "Error:"])
  | Throw _ => False
  | Hang => False
  end.
Proof.
  intro r. subst r. unfold CLI.sendPayment.
  apply poll_then_report.
  apply (sendPayment_facts E voltage).
Qed.

(** X20.  The receive flow of the command line behaves alike: it creates
    the request with the description "CLI payment request", polls the
    record it got, and ends by reporting, success only when the last
    record fetched is completed; exceptions are caught and logged. *)
Theorem cli_receive_reports_the_terminal_status (amount : option Z)
    (maxFee : option (option Z)) (w : World) :
  let r := CLIReceive.receivePayment E voltage walletId amount maxFee w in
  match out r with
  | Ret true =>
      exists pre p, fetched (trace r) = pre ++ [p] /\ status p = completed
  | Ret false =>
      (exists pre p, fetched (trace r) = pre ++ [p] /\ status p = failed) \/
      (exists tr, trace r = tr ++ [ConsoleError "Error:"])
  | Throw _ => False
  | Hang => False
  end.
Proof.
  intro r. subst r. unfold CLIReceive.receivePayment.
  apply poll_then_report.
  apply (createPaymentRequest_facts E voltage).
Qed.

(** X21.  The command line names an amount in the body it posts exactly
    when the amount decoded from the invoice is a number greater than
    zero, and then posts it unchanged; zero, a negative number or NaN
    leave the field out. *)
Theorem cli_names_positive_amounts_only (paymentId bolt11 : string)
    (amountMsats : value) :
  let body := sendPayment_body paymentId
                (CLI.paymentData walletId bolt11 amountMsats) in
  body_names_amount body = CLI.positive amountMsats /\
  body_amount body = if CLI.positive amountMsats then amountMsats else JUndefined.
Proof.
  intro body. subst body. unfold CLI.paymentData.
  destruct amountMsats as [| |b|n| |s|l|l]; try (split; reflexivity).
  cbn [CLI.positive]. destruct (0 <? n)%Z; split; reflexivity.
Qed.

End CommandLine.

(** * The further theorems at work *)

Import Cases.

Lemma fetchWithRetry_returns_first_success_witness :
  let r := fetchWithRetry (env recovers_on_third) (client 5) payment_url
             get_options 0 w0 in
  failing (recovers_on_third 0) = true /\
  failing (recovers_on_third 1) = true /\
  recovers_on_third 2 = Responded delivered_record /\
  out r = Ret delivered_record /\
  http_attempts (trace r) = 3 /\
  sleeps (trace r) = [1000; 1000] /\
  final r = advance 3 w0.
Proof.
  split; [reflexivity|]. split; [reflexivity|]. split; [reflexivity|].
  apply (fetchWithRetry_returns_first_success (env recovers_on_third) (client 5)
           payment_url get_options w0 2 delivered_record).
  - intros i Hi. destruct i as [|[|i]]; [reflexivity|reflexivity|lia].
  - reflexivity.
  - reflexivity.
  - simpl. lia.
Defined.

Lemma fetchWithRetry_gives_up_with_last_failure_witness :
  let r := fetchWithRetry (env always_403) (client 2) payment_url
             get_options 0 w0 in
  out r = Throw (JsError "HTTP error! status: 403") /\
  http_attempts (trace r) = 3 /\
  sleeps (trace r) = [1000; 1000] /\
  final r = advance 3 w0.
Proof.
  apply (fetchWithRetry_gives_up_with_last_failure (env always_403) (client 2)
           payment_url get_options w0).
  intros i Hi. reflexivity.
Defined.

Lemma pollPaymentStatus_only_reads_witness :
  let r := pollPaymentStatus (env completes_on_third) (client 5) "11ca843c"
             (Some record_status) w0 in
  requests (trace r) = repeat (fetch_request (client 5) "11ca843c") 3 /\
  posted (trace r) = [] /\
  final r = advance 3 w0.
Proof.
  apply (pollPaymentStatus_only_reads (env completes_on_third) (client 5)
           "11ca843c" (Some record_status) (or_intror eq_refl) w0).
Defined.

Lemma pollPaymentStatus_waits_witness :
  let r := pollPaymentStatus (env completes_on_third) (client 5) "11ca843c"
             (Some record_status) w0 in
  out r = Ret (record completed (Some "lntbs...") receive) /\
  Forall (eq 1000) (sleeps (trace r)) /\
  S (List.length (sleeps (trace r))) = http_attempts (trace r).
Proof.
  destruct (pollPaymentStatus_waits (env completes_on_third) (client 5)
              "11ca843c" (Some record_status) (or_intror eq_refl) w0)
    as (H1 & _ & H3).
  split; [reflexivity|]. split; [exact H1|].
  exact (H3 (record completed (Some "lntbs...") receive) eq_refl).
Defined.

Lemma pollPaymentStatus_observer_only_watches_witness :
  let quiet := pollPaymentStatus (env completes_on_third) (client 5) "11ca843c"
                 None w0 in
  let loud := pollPaymentStatus (env completes_on_third) (client 5) "11ca843c"
                (Some record_status) w0 in
  observed (trace loud) = [receiving; receiving; completed] /\
  out quiet = out loud /\
  final quiet = final loud /\
  trace quiet = without_notices (trace loud).
Proof.
  split; [reflexivity|].
  apply (pollPaymentStatus_observer_only_watches (env completes_on_third)
           (client 5) "11ca843c" record_status).
  intros s w. exists [s]. reflexivity.
Defined.

Lemma unreadable_payload_gets_internal_error_witness :
  nip04_decrypt (env still_sending) "5ec" "alice" "what" = Some "what"%string /\
  JSON_parse (env still_sending) "what" = None /\
  exists e w',
    onevent (env still_sending) (service 2) (inbound "what") w0
      = Run (Ret tt) [ConsoleError "Error handling request:"; Publish e] w' /\
    answers (env still_sending) (gateway 2) (inbound "what")
      {| result_type := JStr "error";
         NWC.error := Some {| code := INTERNAL;
                              message := "Internal error processing request" |};
         result := None |} e.
Proof.
  split; [reflexivity|]. split; [reflexivity|].
  apply (unreadable_payload_gets_internal_error (env still_sending) (gateway 2)
           (inbound "what") "what" w0).
  - reflexivity.
  - left. reflexivity.
Defined.

Lemma wallet_queries_need_no_backend_witness :
  nullish get_balance_request = false /\
  is_string (method_of get_balance_request) "get_balance" = true /\
  exists e w',
    handleRequest (env always_403) (service 2) (inbound "balance")
      get_balance_request w0
      = Run (Ret tt) [Publish e] w' /\
    answers (env always_403) (gateway 2) (inbound "balance")
      (result_envelope (JStr "get_balance") (JObj [("balance", JNum 0)])) e.
Proof.
  split; [reflexivity|]. split; [reflexivity|].
  destruct (wallet_queries_need_no_backend (env always_403) (gateway 2)
              (inbound "balance") get_balance_request w0 eq_refl) as (H & _).
  apply H. reflexivity.
Defined.

Lemma payment_request_without_params_witness :
  nullish pay_without_params = false /\
  nullish (params_of pay_without_params) = true /\
  is_string (method_of pay_without_params) "pay_invoice" = true /\
  (exists e w',
     handleRequest (env still_sending) (service 2) (inbound "pay")
       pay_without_params w0
       = Run (Ret tt) [Publish e] w' /\
     answers (env still_sending) (gateway 2) (inbound "pay")
       (error_envelope INTERNAL
          "Cannot read properties of undefined (reading 'invoice')") e) /\
  nullish make_with_null_params = false /\
  nullish (params_of make_with_null_params) = true /\
  is_string (method_of make_with_null_params) "make_invoice" = true /\
  (exists e w',
     handleRequest (env still_sending) (service 2) (inbound "make")
       make_with_null_params w0
       = Run (Ret tt) [Publish e] w' /\
     answers (env still_sending) (gateway 2) (inbound "make")
       (error_envelope INTERNAL
          "Cannot read properties of null (reading 'amount')") e).
Proof.
  split; [reflexivity|]. split; [reflexivity|]. split; [reflexivity|].
  split.
  - destruct (payment_request_without_params (env still_sending) (gateway 2)
                (inbound "pay") pay_without_params w0 eq_refl eq_refl) as (H & _).
    apply H. reflexivity.
  - split; [reflexivity|]. split; [reflexivity|]. split; [reflexivity|].
    destruct (payment_request_without_params (env still_sending) (gateway 2)
                (inbound "make") make_with_null_params w0 eq_refl eq_refl)
      as (_ & H).
    apply H. reflexivity.
Defined.



Lemma constructor_keeps_every_truthy_setting_witness :
  let eager := configured None in
  let spent := configured (Some (Configured.of_Z (-1))) in
  let endless := configured (Some Configured.PlusInfinity) in
  Configured.maxRetries eager = Configured.of_nat 30 /\
  Configured.maxRetries spent = Configured.of_Z (-1) /\
  Configured.maxRetries endless = Configured.PlusInfinity /\
  1 <= fetches_by_id
         (trace (Configured.pollPaymentStatus (env completes_on_third) eager 1
                   "11ca843c" None w0)) /\
  Configured.pollPaymentStatus (env completes_on_third) spent 1 "11ca843c" None w0
  = Run (Throw (polling_gave_up (env completes_on_third) spent))
        [Call (OpPollPaymentStatus "11ca843c")] w0.
Proof.
  split; [reflexivity|]. split; [reflexivity|]. split; [reflexivity|].
  split.
  - destruct (constructor_keeps_every_truthy_setting (env completes_on_third)
                (settings None) "11ca843c" None 0 w0)
      as (_ & _ & _ & _ & _ & H & _).
    apply H. reflexivity.
  - destruct (constructor_keeps_every_truthy_setting (env completes_on_third)
                (settings (Some (Configured.of_Z (-1)))) "11ca843c" None 0 w0)
      as (_ & _ & _ & _ & _ & _ & H).
    apply H. reflexivity.
Defined.
